(** * Heartbeat senders of the QPSC QuPath extension

    The repository holds two scripts, [heartbeat.py] and
    [heartbeat_client.py].  Each opens one TCP socket, connects to the
    host and port given on the command line and then sends the bytes
    [heartbeat\n] every two seconds until a call raises.

    The scripts are embedded as interaction trees: every call into the
    Python runtime (socket, time, print) is a visible event answered by
    the environment, which either lets the call return or makes it raise.
    Python's exceptions, [try]/[except]/[finally], [with], [while True] and
    [break] are combinators over such trees.  A fuel-indexed runner plays a
    tree against an environment and records the calls in order. *)

From ITree Require Import ITree Eq.Shallow.
From Stdlib Require Import String List ZArith Lia Bool Arith.
From Stdlib.Strings Require Import Byte.
From Stdlib Require DecimalString.
Import ListNotations.

Set Implicit Arguments.

(* ===================================================================== *)
(** * Python exceptions *)
(* ===================================================================== *)

(** The built-in exception classes the two scripts name in their [except]
    clauses, together with their ancestors and the siblings the socket
    module raises. *)
Inductive pyclass : Set :=
| BaseException
| SystemExit
| KeyboardInterrupt
| Exception
| ArithmeticError
| OverflowError
| OSError
| TimeoutError
| gaierror
| ConnectionError
| BrokenPipeError
| ConnectionAbortedError
| ConnectionRefusedError
| ConnectionResetError.

Definition pyclass_eq_dec (a b : pyclass) : {a = b} + {a <> b}.
Proof. decide equality. Defined.

Definition pyclass_eqb (a b : pyclass) : bool :=
  if pyclass_eq_dec a b then true else false.

(** [base c] is the direct superclass of [c] in the built-in hierarchy. *)
Definition base (c : pyclass) : option pyclass :=
  match c with
  | BaseException => None
  | SystemExit | KeyboardInterrupt | Exception => Some BaseException
  | ArithmeticError | OSError => Some Exception
  | OverflowError => Some ArithmeticError
  | TimeoutError | gaierror | ConnectionError => Some OSError
  | BrokenPipeError | ConnectionAbortedError
  | ConnectionRefusedError | ConnectionResetError => Some ConnectionError
  end.

(** The class and its ancestors, nearest first.  The hierarchy above is
    four links deep at most. *)
Fixpoint mro_upto (depth : nat) (c : pyclass) : list pyclass :=
  c :: match depth, base c with
       | S d, Some p => mro_upto d p
       | _, _ => []
       end.

Definition mro (c : pyclass) : list pyclass := mro_upto 4 c.

Definition issubclass (c d : pyclass) : bool :=
  existsb (pyclass_eqb d) (mro c).

(** A raised exception: an instance of a class with its [str()] text, or
    the [SystemExit] that [sys.exit(code)] raises. *)
Inductive exn : Type :=
| Error (cls : pyclass) (text : string)
| SysExit (code : Z).

Definition class_of (e : exn) : pyclass :=
  match e with
  | Error c _ => c
  | SysExit _ => SystemExit
  end.

Definition isinstance (e : exn) (c : pyclass) : bool :=
  issubclass (class_of e) c.

(** [str(ex)], as the f-string of [heartbeat_client.py] formats it. *)
Definition str (e : exn) : string :=
  match e with
  | Error _ s => s
  | SysExit n => DecimalString.NilEmpty.string_of_int (Z.to_int n)
  end.

(* ===================================================================== *)
(** * Calls into the runtime *)
(* ===================================================================== *)

(** The calls a script can make on its socket, the clock and standard
    output.  [s_recv] is the socket's read operation; it is listed so
    that traces can be checked to be free of reads. *)
Inductive call : Type :=
| socket_socket                              (* socket.socket(AF_INET, SOCK_STREAM) *)
| s_connect (host : string) (port : Z)       (* s.connect((host, port)) *)
| s_sendall (data : list byte)               (* s.sendall(data) *)
| s_recv (bufsize : Z)                       (* s.recv(bufsize) *)
| s_close                                    (* s.close() *)
| time_sleep (secs : Z)                      (* time.sleep(secs) *)
| print (line : string).                     (* print(line) *)

(** One event per call; the answer is [None] when the call returns and
    [Some e] when it raises [e]. *)
Variant sysE : Type -> Type :=
| Sys (c : call) : sysE (option exn).

(* ===================================================================== *)
(** * Python statements as interaction trees *)
(* ===================================================================== *)

(** How a statement ends: it falls through, raises, or executes [break]. *)
Inductive outcome : Type :=
| Normal
| Raised (e : exn)
| Broke.

Definition py : Type := itree sysE outcome.

Definition reply_outcome (r : option exn) : outcome :=
  match r with
  | None => Normal
  | Some e => Raised e
  end.

(** A call statement. *)
Definition do (c : call) : py :=
  ITree.bind (ITree.trigger (Sys c)) (fun r => Ret (reply_outcome r)).

(** [a; b]: [b] runs only when [a] falls through. *)
Definition seq (a b : py) : py :=
  ITree.bind a (fun o => match o with
                         | Normal => b
                         | _ => Ret o
                         end).

(** [break] *)
Definition break : py := Ret Broke.

(** [sys.exit(code)] raises [SystemExit(code)]. *)
Definition sys_exit (code : Z) : py := Ret (Raised (SysExit code)).

(** One [except (C1, ..., Cn) as ex: handler] clause. *)
Record except_clause : Type :=
  except { classes : list pyclass; handler : exn -> py }.

Definition catches (cl : except_clause) (e : exn) : bool :=
  existsb (isinstance e) (classes cl).

(** The first clause that matches handles the exception. *)
Definition dispatch (clauses : list except_clause) (e : exn) : py :=
  match find (fun cl => catches cl e) clauses with
  | Some cl => handler cl e
  | None => Ret (Raised e)
  end.

(** [try: body  except ...: ...].  Only a raise is intercepted; an
    exception raised by a handler propagates. *)
Definition try_except (body : py) (clauses : list except_clause) : py :=
  ITree.bind body (fun o => match o with
                            | Raised e => dispatch clauses e
                            | _ => Ret o
                            end).

(** [try: body  finally: fin].  [fin] always runs; when it falls through,
    the way [body] ended stands, otherwise the way [fin] ended replaces
    it. *)
Definition try_finally (body fin : py) : py :=
  ITree.bind body (fun o =>
  ITree.bind fin (fun o' => match o' with
                            | Normal => Ret o
                            | _ => Ret o'
                            end)).

(** [with socket.socket(...) as s: body].  The socket is created first (a
    failure there propagates and nothing is entered); [__exit__] closes
    the socket however [body] ends and does not swallow exceptions. *)
Definition with_socket (body : py) : py :=
  seq (do socket_socket) (try_finally body (do s_close)).

(** [while True: body].  The loop goes round while [body] falls through,
    ends normally on [break] and propagates a raise. *)
Definition while_True (body : py) : py :=
  ITree.iter (fun _ : unit =>
    ITree.bind body (fun o => match o with
                              | Normal => Ret (inl tt)
                              | Broke => Ret (inr Normal)
                              | Raised e => Ret (inr (Raised e))
                              end)) tt.

Declare Scope py_scope.
Delimit Scope py_scope with py.
Bind Scope py_scope with py.
Notation "a ;; b" := (seq a b) (at level 61, right associativity) : py_scope.

(* ===================================================================== *)
(** * The two scripts *)
(* ===================================================================== *)

(** The parsed command line: [--host] and [--port], both required.
    Parsing itself is [argparse]'s and happens before the socket exists;
    [main] is taken from the point where [args] is in hand. *)
Record args : Type := { host : string; port : Z }.

(** [b"heartbeat\n"] *)
Definition heartbeat_bytes : list byte :=
  list_byte_of_string "heartbeat" ++ [x0a].

Module heartbeat.

Definition main (a : args) : py :=
  with_socket (
    do (s_connect (host a) (port a)) ;;
    do (print "Python: Connected to QuPath workflow, sending heartbeats.") ;;
    try_except
      (while_True (do (s_sendall heartbeat_bytes) ;; do (time_sleep 2)))
      [ except [BrokenPipeError; ConnectionResetError] (fun _ =>
          do (print "Python: QuPath disconnected or closed. Exiting."));
        except [KeyboardInterrupt] (fun _ =>
          do (print "Python: Interrupted, exiting.")) ]
  )%py.

End heartbeat.

Module heartbeat_client.

Definition main (a : args) : py :=
  (do socket_socket ;;
   try_finally
     (try_except
        (do (s_connect (host a) (port a)) ;;
         do (print "Python: Connected to QuPath workflow, sending heartbeats.") ;;
         while_True
           (try_except
              (do (s_sendall heartbeat_bytes) ;; do (time_sleep 2))
              [ except [ConnectionResetError; ConnectionAbortedError; BrokenPipeError]
                  (fun _ =>
                     do (print "Python: Lost connection to QuPath workflow, exiting.") ;;
                     break) ]))
        [ except [Exception] (fun ex =>
            do (print ("Python: Could not connect to QuPath: " ++ str ex)) ;;
            sys_exit 1) ])
     (do s_close))%py.

End heartbeat_client.

(* ===================================================================== *)
(** * Running a script against an environment *)
(* ===================================================================== *)

(** The environment decides, for the i-th call of the run (counted from
    0), whether it returns ([None]) or raises.  It stands for the peer,
    the network and the operator alike: an interrupt from the keyboard is
    a [KeyboardInterrupt] raised by the call it arrives in. *)
Definition environment : Type := nat -> option exn.

(** What has happened so far: the number of calls made and the calls in
    the order they were made. *)
Record world : Type := mk_world { next : nat; log : list call }.

Definition start : world := mk_world 0 [].

Definition record (c : call) (w : world) : world :=
  mk_world (S (next w)) (log w ++ [c]).

(** [run fuel env t w] plays [t] from [w].  Every call and every silent
    step of the tree costs one unit of fuel.  The result is the world
    reached, the fuel left and the outcome, [None] when fuel ran out. *)
Fixpoint run {R : Type} (fuel : nat) (env : environment) (t : itree sysE R)
    (w : world) : world * nat * option R :=
  match observe t with
  | RetF r => (w, fuel, Some r)
  | TauF t' =>
      match fuel with
      | O => (w, O, None)
      | S f => run f env t' w
      end
  | VisF e k =>
      match fuel with
      | O => (w, O, None)
      | S f =>
          match e in sysE X return (X -> itree sysE R) -> world * nat * option R with
          | Sys c => fun k' => run f env (k' (env (next w))) (record c w)
          end k
      end
  end.

(** A whole process: the calls it made and how [main] ended. *)
Definition execute (fuel : nat) (env : environment) (main : py)
  : list call * option outcome :=
  let '(w, _, r) := run fuel env main start in (log w, r).

(** The status the interpreter hands to the operating system when [main]
    ends: 0 on return, the code of a [SystemExit], and a failure status
    when another exception propagates out (1 after the traceback; an
    unhandled [KeyboardInterrupt] ends the process through SIGINT, which a
    POSIX shell reports as 130).  [break] cannot leave a function body, so
    that case does not arise for a script. *)
Definition exit_status (o : outcome) : Z :=
  match o with
  | Normal => 0
  | Raised (SysExit n) => n
  | Raised (Error c _) => if pyclass_eqb c KeyboardInterrupt then 130 else 1
  | Broke => 0
  end.

(** [main] ended with an exception other than [SystemExit] propagating
    out of it. *)
Definition unhandled (o : outcome) : bool :=
  match o with
  | Raised (Error _ _) => true
  | _ => false
  end.

(* ===================================================================== *)
(** * Vocabulary of the claims *)
(* ===================================================================== *)

(** [emits P t]: whatever the environment answers and however much fuel
    there is, running [t] only appends calls satisfying [P] to the log,
    counts each of them, and never gains fuel. *)
Definition emits {R} (P : call -> Prop) (t : itree sysE R) : Prop :=
  forall env fuel w w' f' r,
    run fuel env t w = (w', f', r) ->
    f' <= fuel /\
    exists l, log w' = log w ++ l /\ next w' = next w + length l /\ Forall P l.

Definition connected_line : string :=
  "Python: Connected to QuPath workflow, sending heartbeats.".

(** The three calls both scripts make before the loop. *)
Definition prelude (a : args) : list call :=
  [socket_socket; s_connect (host a) (port a); print connected_line].

(** One turn of the loop, and [n] turns. *)
Definition round : list call := [s_sendall heartbeat_bytes; time_sleep 2].

Fixpoint rounds (n : nat) : list call :=
  match n with
  | O => []
  | S m => round ++ rounds m
  end.

(** The world [n] full turns after [w]. *)
Definition after (n : nat) (w : world) : world :=
  mk_world (next w + 2 * n) (log w ++ rounds n).

(** No call before the [k]-th raises. *)
Definition quiet_before (k : nat) (env : environment) : Prop :=
  forall i, i < k -> env i = None.

(** Classification of calls. *)
Definition is_read (c : call) : bool :=
  match c with s_recv _ => true | _ => false end.

Definition is_connect (c : call) : bool :=
  match c with s_connect _ _ => true | _ => false end.

Definition is_sendall (c : call) : bool :=
  match c with s_sendall _ => true | _ => false end.

Definition is_print (c : call) : bool :=
  match c with print _ => true | _ => false end.

Definition is_create (c : call) : bool :=
  match c with socket_socket => true | _ => false end.

Definition is_close (c : call) : bool :=
  match c with s_close => true | _ => false end.

(** What the peer can observe of the loop: the payloads written and the
    pauses between them. *)
Definition on_wire (c : call) : bool :=
  match c with
  | s_sendall _ | time_sleep _ => true
  | _ => false
  end.

Definition wire (l : list call) : list call := filter on_wire l.

(** The body of the loop of [heartbeat.py], and the guarded body of the
    loop of [heartbeat_client.py]. *)
Abbreviation beat :=
  (seq (do (s_sendall heartbeat_bytes)) (do (time_sleep 2))).

Abbreviation lost_clause :=
  (except [ConnectionResetError; ConnectionAbortedError; BrokenPipeError]
     (fun _ => seq (do (print "Python: Lost connection to QuPath workflow, exiting."))
                   break)).

Abbreviation guarded_beat := (try_except beat [lost_clause]).

Abbreviation heartbeat_clauses :=
  [ except [BrokenPipeError; ConnectionResetError] (fun _ =>
      do (print "Python: QuPath disconnected or closed. Exiting."));
    except [KeyboardInterrupt] (fun _ =>
      do (print "Python: Interrupted, exiting.")) ].

Abbreviation client_clauses :=
  [ except [Exception] (fun ex =>
      seq (do (print ("Python: Could not connect to QuPath: " ++ str ex)))
          (sys_exit 1)) ].

(** The world once the three calls of the prelude have returned. *)
Definition connected (a : args) : world := mk_world 3 (prelude a).

(** The socket is closed however the statements before ended. *)
Definition closing (env : environment) (res : world * nat * option outcome)
  : world * nat * option outcome :=
  match res with
  | (w', f', Some o) =>
      match run f' env (do s_close) w' with
      | (w'', f'', Some Normal) => (w'', f'', Some o)
      | (w'', f'', r) => (w'', f'', r)
      end
  | (w', f', None) => (w', f', None)
  end.

(** The outer [except Exception] of [heartbeat_client.py]. *)
Definition client_handling (env : environment)
    (res : world * nat * option outcome) : world * nat * option outcome :=
  match res with
  | (w', f', Some (Raised e)) => run f' env (dispatch client_clauses e) w'
  | (w', f', r) => (w', f', r)
  end.

(** Where in the loop a call raises: the send or the sleep of turn [n]
    (turns counted from 0). *)
Inductive site : Type :=
| at_send (n : nat)
| at_sleep (n : nat).

(** Position of that call among the calls of the loop, and among all
    calls of the run. *)
Definition offset (s : site) : nat :=
  match s with
  | at_send n => 2 * n
  | at_sleep n => 2 * n + 1
  end.

Definition index (s : site) : nat := 3 + offset s.

(** Fuel the loop uses up to and including that call. *)
Definition cost (s : site) : nat :=
  match s with
  | at_send n => 3 * n + 1
  | at_sleep n => 3 * n + 2
  end.

(** The calls of the loop up to and including that call. *)
Definition calls_to (s : site) : list call :=
  match s with
  | at_send n => rounds n ++ [s_sendall heartbeat_bytes]
  | at_sleep n => rounds n ++ round
  end.

Definition struck (s : site) (w : world) : world :=
  mk_world (next w + S (offset s)) (log w ++ calls_to s).

(** The only call that raises is the [k]-th, and it raises [e]. *)
Definition raises_only_at (k : nat) (e : exn) (env : environment) : Prop :=
  env k = Some e /\ forall i, i <> k -> env i = None.

(** The errors the loop of [heartbeat_client.py] takes for a lost
    connection, and those [heartbeat.py] does. *)
Definition disconnect_error (e : exn) : bool :=
  isinstance e ConnectionResetError || isinstance e ConnectionAbortedError
  || isinstance e BrokenPipeError.

Definition pipe_or_reset_error (e : exn) : bool :=
  isinstance e BrokenPipeError || isinstance e ConnectionResetError.

Definition lost_line : string :=
  "Python: Lost connection to QuPath workflow, exiting.".

Definition disconnected_line : string :=
  "Python: QuPath disconnected or closed. Exiting.".

Definition interrupted_line : string := "Python: Interrupted, exiting.".

Definition could_not_connect_line (e : exn) : string :=
  "Python: Could not connect to QuPath: " ++ str e.

(** When, after the connection is up, a call raises: the print of the
    connected line, or a call of the loop. *)
Inductive moment : Type :=
| announcing
| looping (s : site).

Definition call_index (m : moment) : nat :=
  match m with
  | announcing => 2
  | looping s => index s
  end.

(** The calls up to and including the one that raises, and the fuel they
    take. *)
Definition calls_through (a : args) (m : moment) : list call :=
  match m with
  | announcing => prelude a
  | looping s => prelude a ++ calls_to s
  end.

Definition fuel_through (m : moment) : nat :=
  match m with
  | announcing => 3
  | looping s => 3 + cost s
  end.

(** The exit status of a run, when it has ended. *)
Definition status (r : list call * option outcome) : option Z :=
  option_map exit_status (snd r).

(** Calls that neither create nor close a socket. *)
Definition inner (c : call) : Prop := is_create c = false /\ is_close c = false.

(** The log a run has reached. *)
Definition reached (res : world * nat * option outcome) : list call :=
  log (fst (fst res)).

Definition off_wire (c : call) : Prop := on_wire c = false.

(** The endpoint of the scenarios: a peer on 127.0.0.1:9999. *)
Definition local_peer : args := {| host := "127.0.0.1"; port := 9999 |}.

(** The environment in which no call raises, and the one in which only
    the [k]-th call raises. *)
Definition silent : environment := fun _ => None.

Definition only (k : nat) (e : exn) : environment :=
  fun i => if Nat.eqb i k then Some e else None.

Definition refused : exn :=
  Error ConnectionRefusedError "[Errno 111] Connection refused".

Definition aborted : exn :=
  Error ConnectionAbortedError
    "[WinError 10053] An established connection was aborted by the software in your host machine".

Definition reset : exn :=
  Error ConnectionResetError "[Errno 104] Connection reset by peer".

Definition host_unreachable : exn :=
  Error OSError "[Errno 113] No route to host".

Definition interrupt : exn := Error KeyboardInterrupt "".

(** The calls [heartbeat.py] is written to make for the command line
    [a]: a connect to the given endpoint, a send of the heartbeat bytes, a
    pause of two seconds, one of its three lines; never a read. *)
Definition heartbeat_call (a : args) (c : call) : Prop :=
  match c with
  | socket_socket | s_close => True
  | s_connect h p => h = host a /\ p = port a
  | s_sendall d => d = heartbeat_bytes
  | time_sleep n => n = 2%Z
  | s_recv _ => False
  | print l => In l [connected_line; disconnected_line; interrupted_line]
  end.

(** The calls [heartbeat_client.py] is written to make in a run against
    [env]: the same on the socket and the clock; as lines, its connected
    and lost-connection lines, and the could-not-connect line formatted
    with an [Exception] that a call of this run has raised. *)
Definition client_call (a : args) (env : environment) (c : call) : Prop :=
  match c with
  | socket_socket | s_close => True
  | s_connect h p => h = host a /\ p = port a
  | s_sendall d => d = heartbeat_bytes
  | time_sleep n => n = 2%Z
  | s_recv _ => False
  | print l =>
      In l [connected_line; lost_line] \/
      exists i e, env i = Some e /\ isinstance e Exception = true /\
                  l = could_not_connect_line e
  end.

(** Exactly two calls raise: the [k]-th raises [e], the [k']-th [e']. *)
Definition raises_only_at2 (k : nat) (e : exn) (k' : nat) (e' : exn)
    (env : environment) : Prop :=
  env k = Some e /\ env k' = Some e' /\
  forall i, i <> k -> i <> k' -> env i = None.

Definition only2 (k : nat) (e : exn) (k' : nat) (e' : exn) : environment :=
  fun i => if Nat.eqb i k then Some e
           else if Nat.eqb i k' then Some e' else None.

Definition stdout_closed : exn := Error BrokenPipeError "[Errno 32] Broken pipe".

Definition timed_out : exn := Error TimeoutError "[Errno 110] Connection timed out".

Definition too_many_files : exn := Error OSError "[Errno 24] Too many open files".

Definition bad_descriptor : exn := Error OSError "[Errno 9] Bad file descriptor".

(** Calls made while the socket is open and connected. *)
Definition in_session (c : call) : bool :=
  match c with
  | print _ | s_sendall _ | time_sleep _ => true
  | _ => false
  end.

(** The form of a log with one socket and one connection at most: the
    creation, then the connect, then prints, sends and sleeps, then the
    close; a run may stop anywhere along it. *)
Definition one_session (a : args) (lg : list call) : Prop :=
  lg = [] \/
  exists l t,
    lg = socket_socket :: l ++ t /\
    (t = [] \/ t = [s_close]) /\
    (l = [] \/
     exists l', l = s_connect (host a) (port a) :: l' /\
                Forall (fun c => in_session c = true) l').

(** Send, sleep, send, sleep, ...: some full rounds, then possibly one
    more send. *)
Definition alternating (l : list call) : Prop :=
  exists n, l = rounds n \/ l = rounds n ++ [s_sendall heartbeat_bytes].

(* ===================================================================== *)
(** * The class hierarchy at work *)
(* ===================================================================== *)

Example mro_BrokenPipeError :
  mro BrokenPipeError =
  [BrokenPipeError; ConnectionError; OSError; Exception; BaseException].
Proof. reflexivity. Qed.

Example aborted_is_not_pipe_or_reset :
  disconnect_error aborted = true /\ pipe_or_reset_error aborted = false.
Proof. split; reflexivity. Qed.

Example interrupt_is_no_Exception :
  isinstance interrupt Exception = false /\
  isinstance interrupt BaseException = true.
Proof. split; reflexivity. Qed.

(** What is not an [Exception] is none of the connection errors. *)
Lemma not_Exception_not_disconnect e :
  isinstance e Exception = false -> disconnect_error e = false.
Proof.
  destruct e as [c t|n]; [|reflexivity].
  destruct c; cbn; intros H; first [reflexivity | discriminate H].
Qed.

(* ===================================================================== *)
(** * Equations of the runner *)
(* ===================================================================== *)

Section RunEquations.

Variable env : environment.

(** The runner only looks at the head of the tree. *)
Lemma run_observe {R} (t u : itree sysE R) fuel w :
  observe t = observe u -> run fuel env t w = run fuel env u w.
Proof.
  intros H. destruct fuel; cbn [run]; rewrite H; reflexivity.
Qed.

Lemma run_Ret {R} (r : R) fuel w :
  run fuel env (Ret r) w = (w, fuel, Some r).
Proof. destruct fuel; reflexivity. Qed.

Lemma run_Tau {R} (t : itree sysE R) fuel w :
  run (S fuel) env (Tau t) w = run fuel env t w.
Proof. reflexivity. Qed.

Lemma run_Tau_O {R} (t : itree sysE R) w :
  run 0 env (Tau t) w = (w, 0, None).
Proof. reflexivity. Qed.

(** Running a bind: run the first tree, then the continuation on the
    fuel that is left. *)
Lemma run_bind {R T} (k : R -> itree sysE T) :
  forall fuel (t : itree sysE R) w,
    run fuel env (ITree.bind t k) w =
    match run fuel env t w with
    | (w', f', Some r) => run f' env (k r) w'
    | (w', f', None) => (w', f', None)
    end.
Proof.
  induction fuel as [|f IH]; intros t w.
  - cbn [run]. rewrite observe_bind.
    destruct (observe t) as [r|t'|X e h]; reflexivity.
  - cbn [run]. rewrite observe_bind.
    destruct (observe t) as [r|t'|X e h].
    + apply (run_observe (k r) (k r) (S f) w); reflexivity.
    + apply IH.
    + destruct e. apply IH.
Qed.

Lemma run_iter {A B} (body : A -> itree sysE (A + B)) fuel a w :
  run fuel env (ITree.iter body a) w =
  run fuel env (ITree.bind (body a) (fun lr =>
                  match lr with
                  | inl l => Tau (ITree.iter body l)
                  | inr r => Ret r
                  end)) w.
Proof. apply run_observe. reflexivity. Qed.

Lemma run_do c fuel w :
  run (S fuel) env (do c) w =
  (record c w, fuel, Some (reply_outcome (env (next w)))).
Proof. destruct fuel; reflexivity. Qed.

Lemma run_do_O c w : run 0 env (do c) w = (w, 0, None).
Proof. reflexivity. Qed.

Lemma run_break fuel w : run fuel env break w = (w, fuel, Some Broke).
Proof. apply run_Ret. Qed.

Lemma run_sys_exit code fuel w :
  run fuel env (sys_exit code) w = (w, fuel, Some (Raised (SysExit code))).
Proof. apply run_Ret. Qed.

Lemma run_seq (a b : py) fuel w :
  run fuel env (seq a b) w =
  match run fuel env a w with
  | (w', f', Some Normal) => run f' env b w'
  | (w', f', r) => (w', f', r)
  end.
Proof.
  unfold seq. rewrite run_bind.
  destruct (run fuel env a w) as [[w' f'] [[|e|]|]];
    try reflexivity; apply run_Ret.
Qed.

Lemma run_try_except (body : py) clauses fuel w :
  run fuel env (try_except body clauses) w =
  match run fuel env body w with
  | (w', f', Some (Raised e)) => run f' env (dispatch clauses e) w'
  | (w', f', r) => (w', f', r)
  end.
Proof.
  unfold try_except. rewrite run_bind.
  destruct (run fuel env body w) as [[w' f'] [[|e|]|]];
    try reflexivity; apply run_Ret.
Qed.

Lemma run_try_finally (body fin : py) fuel w :
  run fuel env (try_finally body fin) w =
  match run fuel env body w with
  | (w', f', Some o) =>
      match run f' env fin w' with
      | (w'', f'', Some Normal) => (w'', f'', Some o)
      | (w'', f'', r) => (w'', f'', r)
      end
  | (w', f', None) => (w', f', None)
  end.
Proof.
  unfold try_finally. rewrite run_bind.
  destruct (run fuel env body w) as [[w' f'] [o|]]; [|reflexivity].
  rewrite run_bind.
  destruct (run f' env fin w') as [[w'' f''] [[|e|]|]];
    try reflexivity; apply run_Ret.
Qed.

(** One turn of [while True]: the jump back costs one unit of fuel. *)
Lemma run_while_True (body : py) fuel w :
  run fuel env (while_True body) w =
  match run fuel env body w with
  | (w', f', Some Normal) =>
      match f' with
      | O => (w', O, None)
      | S f'' => run f'' env (while_True body) w'
      end
  | (w', f', Some Broke) => (w', f', Some Normal)
  | (w', f', r) => (w', f', r)
  end.
Proof.
  unfold while_True at 1. rewrite run_iter, !run_bind.
  destruct (run fuel env body w) as [[w' f'] [[|e|]|]];
    rewrite ?run_Ret; try destruct f'; reflexivity.
Qed.

(** More fuel does not change a run that has ended. *)
Lemma run_more_fuel {R} k :
  forall fuel (t : itree sysE R) w w' f' r,
    run fuel env t w = (w', f', Some r) ->
    run (fuel + k) env t w = (w', f' + k, Some r).
Proof.
  induction fuel as [|fuel IH]; intros t w w' f' r H.
  - cbn [Nat.add]. cbn [run] in H.
    destruct k as [|k]; cbn [run];
      destruct (observe t) as [r0|t0|X e0 h]; try discriminate;
      injection H as <- <- <-; reflexivity.
  - cbn [Nat.add run] in *.
    destruct (observe t) as [r0|t0|X e0 h].
    + injection H as <- <- <-. reflexivity.
    + apply IH, H.
    + destruct e0. apply IH, H.
Qed.

End RunEquations.

Arguments run : simpl never.

(* ===================================================================== *)
(** * Which calls a statement can make *)
(* ===================================================================== *)

Section Emits.

Variable P : call -> Prop.

Lemma emits_Ret {R} (r : R) : emits P (Ret r : itree sysE R).
Proof.
  intros env fuel w w' f' r' H. rewrite run_Ret in H.
  injection H as <- <- _. split; [lia|].
  exists []. rewrite app_nil_r. cbn. auto.
Qed.

Lemma emits_bind {R T} (t : itree sysE R) (k : R -> itree sysE T) :
  emits P t -> (forall r, emits P (k r)) -> emits P (ITree.bind t k).
Proof.
  intros Ht Hk env fuel w w' f' r' H. rewrite run_bind in H.
  destruct (run fuel env t w) as [[w1 f1] [r1|]] eqn:E1;
    destruct (Ht _ _ _ _ _ _ E1) as (Hf1 & l1 & Hl1 & Hn1 & HP1).
  - destruct (Hk _ _ _ _ _ _ _ H) as (Hf2 & l2 & Hl2 & Hn2 & HP2).
    split; [lia|]. exists (l1 ++ l2).
    rewrite Hl2, Hl1, Hn2, Hn1, length_app, app_assoc.
    repeat split; [lia | apply Forall_app; auto].
  - injection H as <- <- _. split; [lia|]. exists l1. auto.
Qed.

Lemma emits_Tau {R} (t : itree sysE R) : emits P t -> emits P (Tau t).
Proof.
  intros Ht env [|f] w w' f' r' H.
  - rewrite run_Tau_O in H. injection H as <- <- _. split; [lia|].
    exists []. rewrite app_nil_r. cbn. auto.
  - rewrite run_Tau in H. destruct (Ht _ _ _ _ _ _ H) as (Hf & l & Hl).
    split; [lia|]. exists l. exact Hl.
Qed.

(** A loop emits what its body emits: by induction on the fuel left at
    the start of a turn. *)
Lemma emits_iter {A B} (body : A -> itree sysE (A + B)) :
  (forall a, emits P (body a)) -> forall a, emits P (ITree.iter body a).
Proof.
  intros Hbody a env fuel. revert a.
  induction fuel as [fuel IH] using lt_wf_ind.
  intros a w w' f' r' H. rewrite run_iter, run_bind in H.
  destruct (run fuel env (body a) w) as [[w1 f1] [[a1|b]|]] eqn:E1;
    destruct (Hbody _ _ _ _ _ _ _ E1) as (Hf1 & l1 & Hl1 & Hn1 & HP1).
  - destruct f1 as [|f1].
    + rewrite run_Tau_O in H. injection H as <- <- _. split; [lia|].
      exists l1. auto.
    + rewrite run_Tau in H.
      destruct (IH f1 ltac:(lia) _ _ _ _ _ H) as (Hf2 & l2 & Hl2 & Hn2 & HP2).
      split; [lia|]. exists (l1 ++ l2).
      rewrite Hl2, Hl1, Hn2, Hn1, length_app, app_assoc.
      repeat split; [lia | apply Forall_app; auto].
  - rewrite run_Ret in H. injection H as <- <- _. split; [lia|].
    exists l1. auto.
  - injection H as <- <- _. split; [lia|]. exists l1. auto.
Qed.

Lemma emits_do c : P c -> emits P (do c).
Proof.
  intros Hc env [|f] w w' f' r' H.
  - rewrite run_do_O in H. injection H as <- <- _. split; [lia|].
    exists []. rewrite app_nil_r. cbn. auto.
  - rewrite run_do in H. injection H as <- <- _. split; [lia|].
    exists [c]. cbn. repeat split; [lia | auto].
Qed.

Lemma emits_seq (a b : py) : emits P a -> emits P b -> emits P (seq a b).
Proof.
  intros Ha Hb. apply emits_bind; [exact Ha|].
  intros [|e|]; auto using emits_Ret.
Qed.

Lemma emits_dispatch clauses e :
  Forall (fun cl => forall ex, emits P (handler cl ex)) clauses ->
  emits P (dispatch clauses e).
Proof.
  intros Hcl. unfold dispatch.
  destruct (find (fun cl => catches cl e) clauses) as [cl|] eqn:E.
  - apply find_some in E. destruct E as [Hin _].
    rewrite Forall_forall in Hcl. apply Hcl, Hin.
  - apply emits_Ret.
Qed.

Lemma emits_try_except (body : py) clauses :
  emits P body ->
  Forall (fun cl => forall ex, emits P (handler cl ex)) clauses ->
  emits P (try_except body clauses).
Proof.
  intros Hb Hcl. apply emits_bind; [exact Hb|].
  intros [|e|]; auto using emits_Ret, emits_dispatch.
Qed.

Lemma emits_try_finally (body fin : py) :
  emits P body -> emits P fin -> emits P (try_finally body fin).
Proof.
  intros Hb Hf. apply emits_bind; [exact Hb|].
  intros o. apply emits_bind; [exact Hf|].
  intros [|e|]; apply emits_Ret.
Qed.

Lemma emits_while_True (body : py) :
  emits P body -> emits P (while_True body).
Proof.
  intros Hb. apply emits_iter. intros _.
  apply emits_bind; [exact Hb|].
  intros [|e|]; apply emits_Ret.
Qed.

End Emits.

Lemma emits_weaken {R} (P Q : call -> Prop) (t : itree sysE R) :
  (forall c, P c -> Q c) -> emits P t -> emits Q t.
Proof.
  intros HPQ Ht env fuel w w' f' r H.
  destruct (Ht _ _ _ _ _ _ H) as (Hf & l & Hl & Hn & HP).
  split; [exact Hf|]. exists l. repeat split; auto.
  eapply Forall_impl; eauto.
Qed.

(* ===================================================================== *)
(** * The send loop *)
(* ===================================================================== *)

Ltac run_step :=
  first [ rewrite run_seq | rewrite run_try_except | rewrite run_try_finally
        | rewrite run_do | rewrite run_do_O | rewrite run_Ret
        | rewrite run_break | rewrite run_sys_exit ].

Section Loop.

Variable env : environment.

Lemma after_O w : after 0 w = w.
Proof.
  destruct w as [i l]. unfold after. cbn.
  rewrite app_nil_r, Nat.add_0_r. reflexivity.
Qed.

Lemma after_S n w :
  after (S n) w =
  after n (record (time_sleep 2) (record (s_sendall heartbeat_bytes) w)).
Proof.
  destruct w as [i l]. unfold after, record. cbn [next log rounds].
  f_equal; [lia|]. rewrite <- !app_assoc. reflexivity.
Qed.

(** A turn in which neither call raises. *)
Lemma run_beat f w :
  env (next w) = None -> env (S (next w)) = None ->
  run (S (S f)) env beat w =
  (record (time_sleep 2) (record (s_sendall heartbeat_bytes) w), f, Some Normal).
Proof.
  intros H1 H2. rewrite run_seq, run_do, H1. cbn [reply_outcome].
  rewrite run_do. cbn [next record]. rewrite H2. reflexivity.
Qed.

Lemma run_guarded_beat f w :
  env (next w) = None -> env (S (next w)) = None ->
  run (S (S f)) env guarded_beat w =
  (record (time_sleep 2) (record (s_sendall heartbeat_bytes) w), f, Some Normal).
Proof.
  intros H1 H2. rewrite run_try_except, run_beat by assumption. reflexivity.
Qed.

(** [n] quiet turns cost three units of fuel each: two calls and the
    jump back. *)
Lemma run_rounds (body : py) :
  (forall f w, env (next w) = None -> env (S (next w)) = None ->
     run (S (S f)) env body w =
     (record (time_sleep 2) (record (s_sendall heartbeat_bytes) w), f, Some Normal)) ->
  forall n f w,
    (forall i, i < 2 * n -> env (next w + i) = None) ->
    run (3 * n + f) env (while_True body) w =
    run f env (while_True body) (after n w).
Proof.
  intros Hbody. induction n as [|n IH]; intros f w Hq.
  - rewrite after_O. reflexivity.
  - replace (3 * S n + f) with (S (S (S (3 * n + f)))) by lia.
    rewrite run_while_True, Hbody.
    + rewrite IH, after_S; [reflexivity|].
      intros i Hi. cbn [next record].
      replace (S (S (next w)) + i) with (next w + (2 + i)) by lia.
      apply Hq. lia.
    + rewrite <- (Nat.add_0_r (next w)). apply Hq. lia.
    + replace (S (next w)) with (next w + 1) by lia. apply Hq. lia.
Qed.

(** While no call raises the loop does not end: it uses up any amount
    of fuel. *)
Lemma run_loop_quiet (body : py) :
  (forall f w, env (next w) = None -> env (S (next w)) = None ->
     run (S (S f)) env body w =
     (record (time_sleep 2) (record (s_sendall heartbeat_bytes) w), f, Some Normal)) ->
  (forall w, run 0 env body w = (w, 0, None)) ->
  (forall w, env (next w) = None ->
     run 1 env body w = (record (s_sendall heartbeat_bytes) w, 0, None)) ->
  forall fuel w,
    (forall i, i < fuel -> env (next w + i) = None) ->
    snd (run fuel env (while_True body) w) = None.
Proof.
  intros Hbody H0 H1. induction fuel as [fuel IH] using lt_wf_ind.
  intros w Hq. rewrite run_while_True.
  destruct fuel as [|[|fuel]].
  - rewrite H0. reflexivity.
  - rewrite H1; [reflexivity|].
    rewrite <- (Nat.add_0_r (next w)). apply Hq. lia.
  - rewrite Hbody.
    + destruct fuel as [|fuel]; [reflexivity|].
      apply IH; [lia|]. intros i Hi. cbn [next record].
      replace (S (S (next w)) + i) with (next w + (2 + i)) by lia.
      apply Hq. lia.
    + rewrite <- (Nat.add_0_r (next w)). apply Hq. lia.
    + replace (S (next w)) with (next w + 1) by lia. apply Hq. lia.
Qed.

Lemma run_beat_O w : run 0 env beat w = (w, 0, None).
Proof. rewrite run_seq, run_do_O. reflexivity. Qed.

Lemma run_beat_1 w :
  env (next w) = None ->
  run 1 env beat w = (record (s_sendall heartbeat_bytes) w, 0, None).
Proof.
  intros H. rewrite run_seq, run_do, H. cbn [reply_outcome].
  apply run_do_O.
Qed.

Lemma run_guarded_beat_O w : run 0 env guarded_beat w = (w, 0, None).
Proof. rewrite run_try_except, run_beat_O. reflexivity. Qed.

Lemma run_guarded_beat_1 w :
  env (next w) = None ->
  run 1 env guarded_beat w = (record (s_sendall heartbeat_bytes) w, 0, None).
Proof. intros H. rewrite run_try_except, run_beat_1 by exact H. reflexivity. Qed.

End Loop.

(* ===================================================================== *)
(** * The scripts up to the loop and after it *)
(* ===================================================================== *)

Section Connected.

Variables (a : args) (env : environment).
Hypothesis created : env 0 = None.
Hypothesis established : env 1 = None.
Hypothesis announced : env 2 = None.

Lemma heartbeat_connected f :
  run (3 + f) env (heartbeat.main a) start =
  closing env
    (run f env (try_except (while_True beat) heartbeat_clauses) (connected a)).
Proof.
  unfold heartbeat.main, with_socket. cbn [Nat.add].
  rewrite run_seq, run_do. cbn [next start]. rewrite created.
  cbn [reply_outcome]. rewrite run_try_finally.
  rewrite run_seq, run_do. cbn [next record start]. rewrite established.
  cbn [reply_outcome].
  rewrite run_seq, run_do. cbn [next record start]. rewrite announced.
  cbn [reply_outcome]. reflexivity.
Qed.

Lemma client_connected f :
  run (3 + f) env (heartbeat_client.main a) start =
  closing env
    (client_handling env (run f env (while_True guarded_beat) (connected a))).
Proof.
  unfold heartbeat_client.main. cbn [Nat.add].
  rewrite run_seq, run_do. cbn [next start]. rewrite created.
  cbn [reply_outcome]. rewrite run_try_finally, run_try_except.
  rewrite run_seq, run_do. cbn [next record start]. rewrite established.
  cbn [reply_outcome].
  rewrite run_seq, run_do. cbn [next record start]. rewrite announced.
  cbn [reply_outcome]. reflexivity.
Qed.

End Connected.

Lemma execute_fst fuel env (m : py) :
  fst (execute fuel env m) = log (fst (fst (run fuel env m start))).
Proof.
  unfold execute. destruct (run fuel env m start) as [[w f] r]. reflexivity.
Qed.

Lemma execute_snd fuel env (m : py) :
  snd (execute fuel env m) = snd (run fuel env m start).
Proof.
  unfold execute. destruct (run fuel env m start) as [[w f] r]. reflexivity.
Qed.

(** Symbolic execution of straight-line statements: unfold one statement,
    look the answer of the environment up among the hypotheses. *)
Ltac env_lookup :=
  match goal with
  | H : quiet_before _ ?env |- context [?env ?i] => rewrite (H i) by lia
  | H : ?env ?i = _ |- context [?env ?i] => rewrite H
  end.

Ltac run_calc :=
  repeat first
    [ run_step
    | progress cbn [next log record start connected reply_outcome Nat.add]
    | env_lookup ].

Section Quiet.

Variables (a : args) (env : environment).

Lemma heartbeat_quiet fuel :
  quiet_before fuel env -> snd (execute fuel env (heartbeat.main a)) = None.
Proof.
  intros Hq. rewrite execute_snd.
  destruct fuel as [|[|[|f]]].
  1-3: unfold heartbeat.main, with_socket; run_calc; reflexivity.
  change (S (S (S f))) with (3 + f).
  rewrite heartbeat_connected by (apply Hq; lia).
  rewrite run_try_except.
  pose proof (@run_loop_quiet env beat
                (fun f w => @run_beat env f w) (run_beat_O env) (@run_beat_1 env)
                f (connected a)) as Hloop.
  destruct (run f env (while_True beat) (connected a)) as [[w' f'] r].
  cbn [snd] in Hloop. rewrite Hloop; [reflexivity|].
  intros i Hi. apply Hq. cbn [next connected]. lia.
Qed.

Lemma client_quiet fuel :
  quiet_before fuel env -> snd (execute fuel env (heartbeat_client.main a)) = None.
Proof.
  intros Hq. rewrite execute_snd.
  destruct fuel as [|[|[|f]]].
  1-3: unfold heartbeat_client.main; run_calc; reflexivity.
  change (S (S (S f))) with (3 + f).
  rewrite client_connected by (apply Hq; lia).
  pose proof (@run_loop_quiet env guarded_beat
                (fun f w => @run_guarded_beat env f w)
                (run_guarded_beat_O env) (@run_guarded_beat_1 env)
                f (connected a)) as Hloop.
  destruct (run f env (while_True guarded_beat) (connected a)) as [[w' f'] r].
  cbn [snd] in Hloop. rewrite Hloop; [reflexivity|].
  intros i Hi. apply Hq. cbn [next connected]. lia.
Qed.

(** After [n] quiet turns the log is the prelude followed by [n] rounds,
    and the script is still running. *)
Lemma heartbeat_rounds n :
  quiet_before (3 + 2 * n) env ->
  execute (3 + 3 * n) env (heartbeat.main a) = (prelude a ++ rounds n, None).
Proof.
  intros Hq. unfold execute.
  rewrite heartbeat_connected by (apply Hq; lia).
  rewrite run_try_except.
  rewrite <- (Nat.add_0_r (3 * n)) at 1.
  rewrite (@run_rounds env beat (fun f w => @run_beat env f w)).
  - rewrite run_while_True, run_beat_O. reflexivity.
  - intros i Hi. apply Hq. cbn [next connected]. lia.
Qed.

Lemma client_rounds n :
  quiet_before (3 + 2 * n) env ->
  execute (3 + 3 * n) env (heartbeat_client.main a) = (prelude a ++ rounds n, None).
Proof.
  intros Hq. unfold execute.
  rewrite client_connected by (apply Hq; lia).
  rewrite <- (Nat.add_0_r (3 * n)) at 1.
  rewrite (@run_rounds env guarded_beat (fun f w => @run_guarded_beat env f w)).
  - rewrite run_while_True, run_guarded_beat_O. reflexivity.
  - intros i Hi. apply Hq. cbn [next connected]. lia.
Qed.

End Quiet.

(* ===================================================================== *)
(** * A call of the loop raises *)
(* ===================================================================== *)

Section Fault.

Variable env : environment.

Lemma struck_send n w :
  struck (at_send n) w = record (s_sendall heartbeat_bytes) (after n w).
Proof.
  unfold struck, record, after. cbn [next log offset calls_to].
  f_equal; [lia | apply app_assoc].
Qed.

Lemma struck_sleep n w :
  struck (at_sleep n) w =
  record (time_sleep 2) (record (s_sendall heartbeat_bytes) (after n w)).
Proof.
  unfold struck, record, after, round. cbn [next log offset calls_to].
  f_equal; [lia|]. rewrite <- !app_assoc. reflexivity.
Qed.

(** In [heartbeat.py] the loop passes any exception on. *)
Lemma loop_raises s e f w :
  (forall i, i < offset s -> env (next w + i) = None) ->
  env (next w + offset s) = Some e ->
  run (cost s + f) env (while_True beat) w = (struck s w, f, Some (Raised e)).
Proof.
  intros Hq He. destruct s as [n|n]; cbn [offset cost] in *.
  - rewrite <- Nat.add_assoc, (@run_rounds env beat (fun f w => @run_beat env f w)) by exact Hq.
    rewrite struck_send, run_while_True. cbn [Nat.add].
    rewrite run_seq, run_do. cbn [next after]. rewrite He. reflexivity.
  - rewrite <- Nat.add_assoc, (@run_rounds env beat (fun f w => @run_beat env f w))
      by (intros; apply Hq; lia).
    rewrite struck_sleep, run_while_True. cbn [Nat.add].
    rewrite run_seq, run_do. cbn [next after].
    rewrite (Hq (2 * n)) by lia. cbn [reply_outcome].
    rewrite run_do. cbn [next record after].
    replace (S (next w + 2 * n)) with (next w + (2 * n + 1)) by lia.
    rewrite He. reflexivity.
Qed.

Lemma catches_lost e : catches lost_clause e = disconnect_error e.
Proof.
  unfold catches, disconnect_error. cbn [classes existsb].
  rewrite orb_false_r, orb_assoc. reflexivity.
Qed.

(** In [heartbeat_client.py] the guarded body raises like the plain one;
    the clause then decides. *)
Lemma guarded_loop_raises s e f w :
  (forall i, i < offset s -> env (next w + i) = None) ->
  env (next w + offset s) = Some e ->
  run (cost s + S f) env (while_True guarded_beat) w =
  if disconnect_error e
  then (record (print lost_line) (struck s w), f,
        Some (reply_outcome (env (next w + S (offset s)))))
  else (struck s w, S f, Some (Raised e)).
Proof.
  intros Hq He. destruct s as [n|n]; cbn [offset cost] in *.
  - rewrite <- Nat.add_assoc,
      (@run_rounds env guarded_beat (fun f w => @run_guarded_beat env f w)) by exact Hq.
    rewrite struck_send, run_while_True. cbn [Nat.add].
    rewrite run_try_except, run_seq, run_do. cbn [next after].
    rewrite He. cbn [reply_outcome]. unfold dispatch. cbn [find].
    rewrite catches_lost. destruct (disconnect_error e); [|reflexivity].
    cbn [handler]. rewrite run_seq, run_do. cbn [next record after].
    replace (S (next w + 2 * n)) with (next w + S (2 * n)) by lia.
    destruct (env (next w + S (2 * n))); cbn [reply_outcome];
      [reflexivity | rewrite run_break; reflexivity].
  - rewrite <- Nat.add_assoc,
      (@run_rounds env guarded_beat (fun f w => @run_guarded_beat env f w))
      by (intros; apply Hq; lia).
    rewrite struck_sleep, run_while_True. cbn [Nat.add].
    rewrite run_try_except, run_seq, run_do. cbn [next after].
    rewrite (Hq (2 * n)) by lia. cbn [reply_outcome].
    rewrite run_do. cbn [next record after].
    replace (S (next w + 2 * n)) with (next w + (2 * n + 1)) by lia.
    rewrite He. cbn [reply_outcome]. unfold dispatch. cbn [find].
    rewrite catches_lost. destruct (disconnect_error e); [|reflexivity].
    cbn [handler]. rewrite run_seq, run_do. cbn [next record after].
    replace (S (S (next w + 2 * n))) with (next w + S (2 * n + 1)) by lia.
    destruct (env (next w + S (2 * n + 1))); cbn [reply_outcome];
      [reflexivity | rewrite run_break; reflexivity].
Qed.

End Fault.

(* ===================================================================== *)
(** * Whole runs with a single raise *)
(* ===================================================================== *)

Lemma raises_only_at_quiet k e env :
  raises_only_at k e env -> quiet_before k env.
Proof. intros [_ H] i Hi. apply H. lia. Qed.

Lemma issubclass_KeyboardInterrupt_Exception c :
  issubclass c Exception = true -> pyclass_eqb c KeyboardInterrupt = false.
Proof. destruct c; cbn; congruence. Qed.

(** An [Exception] that propagates out of [main] gives status 1. *)
Lemma exit_status_Exception e :
  isinstance e Exception = true -> exit_status (Raised e) = 1%Z.
Proof.
  destruct e as [c t|n]; cbn [exit_status].
  - intros H. unfold isinstance in H. cbn [class_of] in H.
    rewrite (issubclass_KeyboardInterrupt_Exception _ H). reflexivity.
  - cbn. discriminate.
Qed.

Lemma dispatch_client e :
  dispatch client_clauses e =
  if isinstance e Exception
  then seq (do (print (could_not_connect_line e))) (sys_exit 1)
  else Ret (Raised e).
Proof.
  unfold dispatch, catches. cbn [find classes existsb].
  rewrite orb_false_r. destruct (isinstance e Exception); reflexivity.
Qed.

Lemma dispatch_heartbeat e :
  dispatch heartbeat_clauses e =
  if pipe_or_reset_error e then do (print disconnected_line)
  else if isinstance e KeyboardInterrupt then do (print interrupted_line)
  else Ret (Raised e).
Proof.
  unfold dispatch, catches, pipe_or_reset_error. cbn [find classes existsb].
  rewrite !orb_false_r.
  destruct (isinstance e BrokenPipeError || isinstance e ConnectionResetError);
    [reflexivity|].
  destruct (isinstance e KeyboardInterrupt); reflexivity.
Qed.

Ltac log_done :=
  cbn [log record struck connected next app]; rewrite <- ?app_assoc; reflexivity.

Section SingleRaise.

Variables (a : args) (env : environment) (e : exn).

(** [heartbeat_client.py], the connect raises an [Exception]. *)
Lemma client_connect_fails f :
  raises_only_at 1 e env -> isinstance e Exception = true ->
  execute (4 + f) env (heartbeat_client.main a) =
  ([socket_socket; s_connect (host a) (port a);
    print (could_not_connect_line e); s_close],
   Some (Raised (SysExit 1))).
Proof.
  intros [He Hq] Hex. unfold execute, heartbeat_client.main. cbn [Nat.add].
  rewrite run_seq, run_do. cbn [next start]. rewrite (Hq 0) by lia.
  cbn [reply_outcome]. rewrite run_try_finally, run_try_except.
  rewrite run_seq, run_do. cbn [next record start]. rewrite He.
  cbn [reply_outcome]. rewrite dispatch_client, Hex.
  rewrite run_seq, run_do. cbn [next record start]. rewrite (Hq 2) by lia.
  cbn [reply_outcome]. rewrite run_sys_exit, run_do. cbn [next record start].
  rewrite (Hq 3) by lia. reflexivity.
Qed.

(** [heartbeat.py], the connect raises: nothing catches it. *)
Lemma heartbeat_connect_fails f :
  raises_only_at 1 e env ->
  execute (3 + f) env (heartbeat.main a) =
  ([socket_socket; s_connect (host a) (port a); s_close], Some (Raised e)).
Proof.
  intros [He Hq]. unfold execute, heartbeat.main, with_socket. cbn [Nat.add].
  rewrite run_seq, run_do. cbn [next start]. rewrite (Hq 0) by lia.
  cbn [reply_outcome]. rewrite run_try_finally.
  rewrite run_seq, run_do. cbn [next record start]. rewrite He.
  cbn [reply_outcome]. rewrite run_do. cbn [next record start].
  rewrite (Hq 2) by lia. reflexivity.
Qed.

(** [heartbeat_client.py], a later call raises an [Exception] that the
    loop does not take for a lost connection: the outer clause reports a
    failed connect and exits with 1. *)
Lemma client_fault_reported m f :
  raises_only_at (call_index m) e env ->
  isinstance e Exception = true ->
  (match m with announcing => true | looping _ => negb (disconnect_error e) end) = true ->
  execute (fuel_through m + 2 + f) env (heartbeat_client.main a) =
  (calls_through a m ++ [print (could_not_connect_line e); s_close],
   Some (Raised (SysExit 1))).
Proof.
  intros [He Hq] Hex Hm. destruct m as [|s]; cbn [call_index fuel_through calls_through] in *.
  - unfold execute, heartbeat_client.main. cbn [Nat.add].
    rewrite run_seq, run_do. cbn [next start]. rewrite (Hq 0) by lia.
    cbn [reply_outcome]. rewrite run_try_finally, run_try_except.
    rewrite run_seq, run_do. cbn [next record start]. rewrite (Hq 1) by lia.
    cbn [reply_outcome].
    rewrite run_seq, run_do. cbn [next record start]. rewrite He.
    cbn [reply_outcome]. rewrite dispatch_client, Hex.
    rewrite run_seq, run_do. cbn [next record start]. rewrite (Hq 3) by lia.
    cbn [reply_outcome]. rewrite run_sys_exit, run_do. cbn [next record start].
    rewrite (Hq 4) by lia. reflexivity.
  - apply negb_true_iff in Hm. unfold execute.
    replace (3 + cost s + 2 + f) with (3 + (cost s + S (S f))) by lia.
    rewrite client_connected by (apply Hq; unfold index; lia).
    rewrite (@guarded_loop_raises env s e (S f) (connected a)), Hm.
    + unfold client_handling. rewrite dispatch_client, Hex.
      rewrite run_seq, run_do. cbn [next struck connected].
      rewrite (Hq (3 + S (offset s))) by (unfold index; lia).
      cbn [reply_outcome]. rewrite run_sys_exit. unfold closing.
      rewrite run_do. cbn [next record struck connected log].
      rewrite (Hq (S (3 + S (offset s)))) by (unfold index; lia).
      cbn [reply_outcome]. log_done.
    + intros i Hi. apply Hq. unfold index. cbn [next connected]. lia.
    + exact He.
Qed.

(** [heartbeat_client.py], a call of the loop raises one of the three
    errors of its clause: the loop reports the lost connection and ends,
    [main] returns. *)
Lemma client_disconnect s f :
  raises_only_at (index s) e env ->
  disconnect_error e = true ->
  execute (3 + cost s + 2 + f) env (heartbeat_client.main a) =
  (prelude a ++ calls_to s ++ [print lost_line; s_close], Some Normal).
Proof.
  intros [He Hq] Hd. unfold execute.
  replace (3 + cost s + 2 + f) with (3 + (cost s + S (S f))) by lia.
  rewrite client_connected by (apply Hq; unfold index; lia).
  rewrite (@guarded_loop_raises env s e (S f) (connected a)), Hd.
  - cbn [next connected].
    rewrite (Hq (3 + S (offset s))) by (unfold index; lia).
    cbn [reply_outcome client_handling closing].
    rewrite run_do. cbn [next record struck connected log].
    rewrite (Hq (S (3 + S (offset s)))) by (unfold index; lia).
    cbn [reply_outcome]. log_done.
  - intros i Hi. apply Hq. unfold index. cbn [next connected]. lia.
  - exact He.
Qed.

(** [heartbeat.py], a call of the loop raises. *)
Lemma heartbeat_fault s f :
  raises_only_at (index s) e env ->
  execute (3 + cost s + 2 + f) env (heartbeat.main a) =
  if pipe_or_reset_error e
  then (prelude a ++ calls_to s ++ [print disconnected_line; s_close], Some Normal)
  else if isinstance e KeyboardInterrupt
  then (prelude a ++ calls_to s ++ [print interrupted_line; s_close], Some Normal)
  else (prelude a ++ calls_to s ++ [s_close], Some (Raised e)).
Proof.
  intros [He Hq]. unfold execute.
  replace (3 + cost s + 2 + f) with (3 + (cost s + S (S f))) by lia.
  rewrite heartbeat_connected by (apply Hq; unfold index; lia).
  rewrite run_try_except.
  rewrite (@loop_raises env s e (S (S f)) (connected a)).
  - rewrite dispatch_heartbeat.
    destruct (pipe_or_reset_error e); [|destruct (isinstance e KeyboardInterrupt)].
    + rewrite run_do. cbn [next struck connected].
      rewrite (Hq (3 + S (offset s))) by (unfold index; lia).
      cbn [reply_outcome closing].
      rewrite run_do. cbn [next record struck connected log].
      rewrite (Hq (S (3 + S (offset s)))) by (unfold index; lia).
      cbn [reply_outcome]. log_done.
    + rewrite run_do. cbn [next struck connected].
      rewrite (Hq (3 + S (offset s))) by (unfold index; lia).
      cbn [reply_outcome closing].
      rewrite run_do. cbn [next record struck connected log].
      rewrite (Hq (S (3 + S (offset s)))) by (unfold index; lia).
      cbn [reply_outcome]. log_done.
    + rewrite run_Ret. cbn [closing].
      rewrite run_do. cbn [next record struck connected log].
      rewrite (Hq (3 + S (offset s))) by (unfold index; lia).
      cbn [reply_outcome]. log_done.
  - intros i Hi. apply Hq. unfold index. cbn [next connected]. lia.
  - exact He.
Qed.

(** [heartbeat_client.py], a call of the loop raises what is not an
    [Exception] (an interrupt): no clause matches, only [finally] runs. *)
Lemma client_not_Exception s f :
  raises_only_at (index s) e env ->
  isinstance e Exception = false ->
  execute (3 + cost s + 2 + f) env (heartbeat_client.main a) =
  (prelude a ++ calls_to s ++ [s_close], Some (Raised e)).
Proof.
  intros [He Hq] Hex. unfold execute.
  replace (3 + cost s + 2 + f) with (3 + (cost s + S (S f))) by lia.
  rewrite client_connected by (apply Hq; unfold index; lia).
  rewrite (@guarded_loop_raises env s e (S f) (connected a)),
    (not_Exception_not_disconnect _ Hex).
  - unfold client_handling. rewrite dispatch_client, Hex, run_Ret.
    unfold closing. rewrite run_do. cbn [next struck connected].
    rewrite (Hq (3 + S (offset s))) by (unfold index; lia).
    cbn [reply_outcome]. log_done.
  - intros i Hi. apply Hq. unfold index. cbn [next connected]. lia.
  - exact He.
Qed.

End SingleRaise.

(* ===================================================================== *)
(** * Properties of every run *)
(* ===================================================================== *)

Ltac emits_auto :=
  unfold heartbeat.main, heartbeat_client.main, with_socket, break, sys_exit;
  repeat first
    [ apply emits_seq | apply emits_try_finally | apply emits_try_except
    | apply emits_while_True | apply emits_do | apply emits_Ret
    | apply Forall_cons | apply Forall_nil | intro ];
  try reflexivity.

(** Neither script ever calls the socket's read operation. *)
Lemma heartbeat_never_reads a :
  emits (fun c => is_read c = false) (heartbeat.main a).
Proof. emits_auto. Qed.

Lemma client_never_reads a :
  emits (fun c => is_read c = false) (heartbeat_client.main a).
Proof. emits_auto. Qed.

Lemma emits_execute P (m : py) fuel env :
  emits P m -> Forall P (fst (execute fuel env m)).
Proof.
  intros Hm. rewrite execute_fst.
  destruct (run fuel env m start) as [[w' f'] r] eqn:E.
  destruct (Hm _ _ _ _ _ _ E) as (_ & l & Hl & _ & HP).
  cbn [fst]. rewrite Hl. exact HP.
Qed.

(** What stands between socket creation and [close] in either script. *)
Lemma heartbeat_body_inner a :
  emits inner
    (do (s_connect (host a) (port a)) ;;
     do (print "Python: Connected to QuPath workflow, sending heartbeats.") ;;
     try_except (while_True beat) heartbeat_clauses)%py.
Proof. emits_auto; split; reflexivity. Qed.

Lemma client_body_inner a :
  emits inner
    (try_except
       (do (s_connect (host a) (port a)) ;;
        do (print "Python: Connected to QuPath workflow, sending heartbeats.") ;;
        while_True guarded_beat)
       client_clauses)%py.
Proof. emits_auto; split; reflexivity. Qed.

(** A socket that was created is closed by the last call of every run
    that ends, and by no other. *)
Lemma with_socket_closes (body : py) env fuel w w' f' o :
  emits inner body ->
  env (next w) = None ->
  run fuel env (with_socket body) w = (w', f', Some o) ->
  exists l, log w' = log w ++ socket_socket :: l ++ [s_close] /\ Forall inner l.
Proof.
  intros Hbody Hc H. unfold with_socket in H. rewrite run_seq in H.
  destruct fuel as [|fuel]; [rewrite run_do_O in H; discriminate|].
  rewrite run_do, Hc in H. cbn [reply_outcome] in H.
  rewrite run_try_finally in H.
  destruct (run fuel env body (record socket_socket w)) as [[w1 f1] [o1|]] eqn:E1;
    [|discriminate].
  destruct (Hbody _ _ _ _ _ _ E1) as (_ & l & Hl & _ & HP).
  destruct f1 as [|f1]; [rewrite run_do_O in H; discriminate|].
  rewrite run_do in H. exists l. split; [|exact HP].
  assert (Hw : w' = record s_close w1)
    by (destruct (reply_outcome (env (next w1))); congruence).
  rewrite Hw. cbn [log record]. rewrite Hl. cbn [log record].
  rewrite <- !app_assoc. reflexivity.
Qed.

Lemma filter_inner_create l :
  Forall inner l -> filter is_create l = [].
Proof.
  induction 1 as [|c l [Hc _] _ IH]; [reflexivity|].
  cbn [filter]. rewrite Hc. exact IH.
Qed.

Lemma filter_inner_close l :
  Forall inner l -> filter is_close l = [].
Proof.
  induction 1 as [|c l [_ Hc] _ IH]; [reflexivity|].
  cbn [filter]. rewrite Hc. exact IH.
Qed.

Lemma created_once_closed_last (body : py) env fuel lg o :
  emits inner body ->
  env 0 = None ->
  execute fuel env (with_socket body) = (lg, Some o) ->
  filter is_create lg = [socket_socket] /\
  filter is_close lg = [s_close] /\
  last lg socket_socket = s_close.
Proof.
  intros Hbody Hc H. unfold execute in H.
  destruct (run fuel env (with_socket body) start) as [[w' f'] r] eqn:E.
  injection H as <- ->.
  destruct (@with_socket_closes body env fuel start w' f' o Hbody Hc E) as (l & Hl & HP).
  rewrite Hl. cbn [log start app filter is_create is_close].
  rewrite !filter_app, filter_inner_create, filter_inner_close by exact HP.
  repeat split. rewrite app_comm_cons. apply last_last.
Qed.

Lemma wire_app l1 l2 : wire (l1 ++ l2) = wire l1 ++ wire l2.
Proof. apply filter_app. Qed.

Lemma wire_off l : Forall off_wire l -> wire l = [].
Proof.
  induction 1 as [|c l Hc _ IH]; [reflexivity|].
  unfold wire in *. cbn [filter]. rewrite Hc. exact IH.
Qed.

(** Statements that make no call on the wire leave the wire log as it
    is. *)
Lemma wire_emits (t : py) env fuel w :
  emits off_wire t -> wire (reached (run fuel env t w)) = wire (log w).
Proof.
  intros Ht. destruct (run fuel env t w) as [[w' f'] r] eqn:E.
  destruct (Ht _ _ _ _ _ _ E) as (_ & l & Hl & _ & HP).
  unfold reached. cbn [fst]. rewrite Hl, wire_app, (wire_off HP).
  apply app_nil_r.
Qed.

Lemma wire_closing env res :
  wire (reached (closing env res)) = wire (reached res).
Proof.
  destruct res as [[w f] [o|]]; [|reflexivity]. unfold closing.
  pose proof (@wire_emits (do s_close) env f w) as H.
  destruct (run f env (do s_close) w) as [[w' f'] [[|e|]|]];
    apply H; emits_auto.
Qed.

Lemma off_wire_client_dispatch e : emits off_wire (dispatch client_clauses e).
Proof. apply emits_dispatch. emits_auto. Qed.

Lemma off_wire_heartbeat_dispatch e : emits off_wire (dispatch heartbeat_clauses e).
Proof. apply emits_dispatch. emits_auto. Qed.

Lemma wire_client_handling env res :
  wire (reached (client_handling env res)) = wire (reached res).
Proof.
  destruct res as [[w f] [[|e|]|]]; try reflexivity.
  unfold client_handling. apply wire_emits, off_wire_client_dispatch.
Qed.

Lemma wire_heartbeat_handling env fuel (t : py) w :
  wire (reached (run fuel env (try_except t heartbeat_clauses) w)) =
  wire (reached (run fuel env t w)).
Proof.
  rewrite run_try_except.
  destruct (run fuel env t w) as [[w' f'] [[|e|]|]]; try reflexivity.
  apply wire_emits, off_wire_heartbeat_dispatch.
Qed.

(** The two loops write the same payloads with the same pauses, whatever
    the environment answers and wherever the fuel runs out. *)
Lemma loops_wire_equal env :
  forall fuel w,
    wire (reached (run fuel env (while_True beat) w)) =
    wire (reached (run fuel env (while_True guarded_beat) w)).
Proof.
  induction fuel as [fuel IH] using lt_wf_ind. intros w.
  rewrite !run_while_True, run_try_except, run_seq.
  destruct fuel as [|fuel]; [rewrite run_do_O; reflexivity|].
  rewrite run_do.
  destruct (env (next w)) as [e|]; cbn [reply_outcome].
  - (* the send raises *)
    unfold dispatch. cbn [find]. rewrite catches_lost.
    destruct (disconnect_error e); [|rewrite run_Ret; reflexivity].
    cbn [handler]. rewrite run_seq.
    destruct fuel as [|fuel]; [rewrite run_do_O; reflexivity|].
    rewrite run_do.
    destruct (env (next (record (s_sendall heartbeat_bytes) w)));
      cbn [reply_outcome]; rewrite ?run_break;
      unfold reached, wire; cbn [fst log record];
      rewrite !filter_app, app_nil_r; reflexivity.
  - destruct fuel as [|fuel]; [rewrite run_do_O; reflexivity|].
    rewrite run_do.
    destruct (env (next (record (s_sendall heartbeat_bytes) w))) as [e|];
      cbn [reply_outcome].
    + (* the sleep raises *)
      unfold dispatch. cbn [find]. rewrite catches_lost.
      destruct (disconnect_error e); [|rewrite run_Ret; reflexivity].
      cbn [handler]. rewrite run_seq.
      destruct fuel as [|fuel]; [rewrite run_do_O; reflexivity|].
      rewrite run_do.
      destruct (env (next (record (time_sleep 2)
                             (record (s_sendall heartbeat_bytes) w))));
        cbn [reply_outcome]; rewrite ?run_break;
        unfold reached, wire; cbn [fst log record];
        rewrite !filter_app, app_nil_r; reflexivity.
    + (* a full turn *)
      destruct fuel as [|fuel]; [reflexivity|].
      apply IH. lia.
Qed.

Lemma run_closing env (body : py) fuel w :
  run fuel env (try_finally body (do s_close)) w = closing env (run fuel env body w).
Proof. rewrite run_try_finally. reflexivity. Qed.

Lemma run_client_handling env (body : py) fuel w :
  run fuel env (try_except body client_clauses) w =
  client_handling env (run fuel env body w).
Proof. rewrite run_try_except. reflexivity. Qed.

Lemma mains_wire_equal a env fuel :
  wire (fst (execute fuel env (heartbeat.main a))) =
  wire (fst (execute fuel env (heartbeat_client.main a))).
Proof.
  rewrite !execute_fst. fold (reached (run fuel env (heartbeat.main a) start)).
  fold (reached (run fuel env (heartbeat_client.main a) start)).
  unfold heartbeat.main, heartbeat_client.main, with_socket.
  rewrite !run_seq.
  destruct fuel as [|fuel]; [rewrite run_do_O; reflexivity|].
  rewrite run_do. destruct (env (next start)); cbn [reply_outcome]; [reflexivity|].
  rewrite !run_closing, !wire_closing, run_client_handling, wire_client_handling.
  rewrite !run_seq.
  destruct fuel as [|fuel]; [rewrite run_do_O; reflexivity|].
  rewrite run_do.
  destruct (env (next (record socket_socket start))); cbn [reply_outcome];
    [reflexivity|].
  rewrite !run_seq.
  destruct fuel as [|fuel]; [rewrite run_do_O; reflexivity|].
  rewrite run_do.
  destruct (env (next (record (s_connect (host a) (port a))
                         (record socket_socket start))));
    cbn [reply_outcome]; [reflexivity|].
  rewrite wire_heartbeat_handling. apply loops_wire_equal.
Qed.

Lemma execute_more_fuel env k fuel (m : py) lg o :
  execute fuel env m = (lg, Some o) -> execute (fuel + k) env m = (lg, Some o).
Proof.
  unfold execute. intros H.
  destruct (run fuel env m start) as [[w' f'] r] eqn:E.
  injection H as <- ->. rewrite (run_more_fuel env k _ _ _ E). reflexivity.
Qed.

(** Case analysis over the answers of the environment that a run asks
    for. *)
Ltac split_answer :=
  match goal with
  | |- context [reply_outcome (?env ?i)] =>
      let E := fresh "E" in destruct (env i) eqn:E; cbn [reply_outcome]
  end.

Ltac run_cases :=
  repeat first
    [ run_step
    | progress cbn [next log record start connected reply_outcome Nat.add]
    | env_lookup
    | rewrite dispatch_client
    | rewrite dispatch_heartbeat
    | split_answer
    | match goal with
      | |- context [if ?b then _ else _] => destruct b eqn:?
      end ].

Section ConnectFails.

Variables (a : args) (env : environment) (e : exn).
Hypothesis created : env 0 = None.
Hypothesis refused : env 1 = Some e.

(** However little fuel there is, a failed connect is the only one, and
    nothing is sent. *)
Lemma heartbeat_no_retry fuel :
  length (filter is_connect (fst (execute fuel env (heartbeat.main a)))) <= 1 /\
  filter is_sendall (fst (execute fuel env (heartbeat.main a))) = [].
Proof.
  unfold execute, heartbeat.main, with_socket.
  destruct fuel as [|[|[|f]]]; run_cases; cbn; auto.
Qed.

Lemma client_no_retry fuel :
  length (filter is_connect (fst (execute fuel env (heartbeat_client.main a)))) <= 1 /\
  filter is_sendall (fst (execute fuel env (heartbeat_client.main a))) = [].
Proof.
  unfold execute, heartbeat_client.main.
  destruct fuel as [|[|[|[|f]]]]; run_cases; cbn; auto.
Qed.

(** With fuel for four calls the run has ended, after one attempt. *)
Lemma heartbeat_gives_up f :
  exists lg o,
    execute (4 + f) env (heartbeat.main a) = (lg, Some o) /\
    filter is_connect lg = [s_connect (host a) (port a)] /\
    filter is_sendall lg = [].
Proof.
  unfold execute, heartbeat.main, with_socket. run_cases;
    eexists; eexists; (split; [reflexivity|]); cbn; auto.
Qed.

Lemma client_gives_up f :
  exists lg o,
    execute (4 + f) env (heartbeat_client.main a) = (lg, Some o) /\
    filter is_connect lg = [s_connect (host a) (port a)] /\
    filter is_sendall lg = [].
Proof.
  unfold execute, heartbeat_client.main. run_cases;
    eexists; eexists; (split; [reflexivity|]); cbn; auto.
Qed.

End ConnectFails.

(** Up to any bound, either no call raises or some call does. *)
Lemma quiet_or_raise (env : environment) n :
  quiet_before n env \/ exists i e, i < n /\ env i = Some e.
Proof.
  induction n as [|n [Hq|(i & e & Hi & He)]].
  - left. intros i Hi. lia.
  - destruct (env n) as [e|] eqn:E.
    + right. exists n, e. split; [lia | exact E].
    + left. intros i Hi. destruct (Nat.eq_dec i n) as [->|Hne]; [exact E|].
      apply Hq. lia.
  - right. exists i, e. split; [lia | exact He].
Qed.

(** A run that has ended was ended by a raise. *)
Lemma ended_by_raise a env fuel o :
  snd (execute fuel env (heartbeat.main a)) = Some o \/
  snd (execute fuel env (heartbeat_client.main a)) = Some o ->
  exists i e, i < fuel /\ env i = Some e.
Proof.
  intros H. destruct (quiet_or_raise env fuel) as [Hq|Hr]; [|exact Hr].
  rewrite (heartbeat_quiet a Hq), (client_quiet a Hq) in H.
  destruct H; discriminate.
Qed.

(* ===================================================================== *)
(** * Concrete runs *)
(* ===================================================================== *)

Lemma only_raises_only_at k e : raises_only_at k e (only k e).
Proof.
  unfold raises_only_at, only. rewrite Nat.eqb_refl. split; [reflexivity|].
  intros i Hi. apply Nat.eqb_neq in Hi. rewrite Hi. reflexivity.
Qed.

Lemma silent_quiet k : quiet_before k silent.
Proof. intros i _. reflexivity. Qed.

(* ===================================================================== *)
(** * The socket from creation to close *)
(* ===================================================================== *)

(** The creation is the first call and is not repeated: a run that has
    taken a step has created the socket exactly once. *)
Lemma created_first (rest : py) env fuel :
  emits (fun c => is_create c = false) rest ->
  filter is_create (fst (execute (S fuel) env (seq (do socket_socket) rest))) =
  [socket_socket].
Proof.
  intros Hrest. rewrite execute_fst, run_seq, run_do.
  destruct (env (next start)); cbn [reply_outcome]; [reflexivity|].
  destruct (run fuel env rest (record socket_socket start)) as [[w' f'] r] eqn:E.
  destruct (Hrest _ _ _ _ _ _ E) as (_ & l & Hl & _ & HP).
  cbn [fst]. rewrite Hl. cbn [log record start app filter is_create].
  f_equal. clear Hl. induction HP as [|c l Hc _ IH]; [reflexivity|].
  cbn [filter]. rewrite Hc. exact IH.
Qed.

Lemma heartbeat_created_first a env fuel :
  filter is_create (fst (execute (S fuel) env (heartbeat.main a))) = [socket_socket].
Proof. apply created_first. emits_auto. Qed.

Lemma client_created_first a env fuel :
  filter is_create (fst (execute (S fuel) env (heartbeat_client.main a))) =
  [socket_socket].
Proof. apply created_first. emits_auto. Qed.

(** Every call index from 3 on is a send or a sleep of some turn. *)
Lemma site_of_index k : 3 <= k -> exists s, index s = k.
Proof.
  intros Hk. destruct (Nat.Even_or_Odd (k - 3)) as [[n Hn] | [n Hn]].
  - exists (at_send n). unfold index, offset. lia.
  - exists (at_sleep n). unfold index, offset. lia.
Qed.

Section FirstRaise.

Variables (a : args) (env : environment) (e : exn).

(** The print of the connected line is the first call to raise: both
    scripts end within two more calls, whatever those answer. *)
Lemma heartbeat_ends_after_announce f :
  quiet_before 2 env -> env 2 = Some e ->
  exists lg o, execute (5 + f) env (heartbeat.main a) = (lg, Some o).
Proof.
  intros Hq He. unfold execute, heartbeat.main, with_socket. run_cases;
    eexists; eexists; reflexivity.
Qed.

Lemma client_ends_after_announce f :
  quiet_before 2 env -> env 2 = Some e ->
  exists lg o, execute (5 + f) env (heartbeat_client.main a) = (lg, Some o).
Proof.
  intros Hq He. unfold execute, heartbeat_client.main. run_cases;
    eexists; eexists; reflexivity.
Qed.

(** A send or a sleep is the first call to raise: both scripts end within
    three more calls, whatever those answer. *)
Lemma heartbeat_ends_after_loop_raise s f :
  quiet_before (index s) env -> env (index s) = Some e ->
  exists lg o, execute (3 + cost s + 3 + f) env (heartbeat.main a) = (lg, Some o).
Proof.
  intros Hq He. unfold execute.
  replace (3 + cost s + 3 + f) with (3 + (cost s + S (S (S f)))) by lia.
  rewrite heartbeat_connected by (apply Hq; unfold index; lia).
  rewrite run_try_except.
  rewrite (@loop_raises env s e (S (S (S f))) (connected a));
    [|intros i Hi; apply Hq; unfold index; cbn [next connected]; lia | exact He].
  clear Hq He. unfold closing. run_cases; eexists; eexists; reflexivity.
Qed.

Lemma client_ends_after_loop_raise s f :
  quiet_before (index s) env -> env (index s) = Some e ->
  exists lg o, execute (3 + cost s + 3 + f) env (heartbeat_client.main a) = (lg, Some o).
Proof.
  intros Hq He. unfold execute.
  replace (3 + cost s + 3 + f) with (3 + (cost s + S (S (S f)))) by lia.
  rewrite client_connected by (apply Hq; unfold index; lia).
  rewrite (@guarded_loop_raises env s e (S (S f)) (connected a));
    [|intros i Hi; apply Hq; unfold index; cbn [next connected]; lia | exact He].
  clear Hq He. unfold closing, client_handling.
  run_cases; eexists; eexists; reflexivity.
Qed.

End FirstRaise.

(** Whenever a call after the creation is the first to raise, both runs
    end, given the fuel to get there. *)
Lemma both_end_after_first_raise a env k e :
  1 <= k -> quiet_before k env -> env k = Some e ->
  exists N, forall f,
    (exists lg o, execute (N + f) env (heartbeat.main a) = (lg, Some o)) /\
    (exists lg o, execute (N + f) env (heartbeat_client.main a) = (lg, Some o)).
Proof.
  intros Hk Hq He.
  destruct k as [|[|[|k]]]; [lia| | |].
  - exists 4. intros f. split.
    + destruct (@heartbeat_gives_up a env e (Hq 0 ltac:(lia)) He f)
        as (lg & o & H & _). exists lg, o. exact H.
    + destruct (@client_gives_up a env e (Hq 0 ltac:(lia)) He f)
        as (lg & o & H & _). exists lg, o. exact H.
  - exists 5. intros f. split.
    + apply (@heartbeat_ends_after_announce a env e f Hq He).
    + apply (@client_ends_after_announce a env e f Hq He).
  - destruct (@site_of_index (S (S (S k))) ltac:(lia)) as [s Hs].
    rewrite <- Hs in Hq, He.
    exists (3 + cost s + 3). intros f. split.
    + apply (@heartbeat_ends_after_loop_raise a env e s f Hq He).
    + apply (@client_ends_after_loop_raise a env e s f Hq He).
Qed.

(* ===================================================================== *)
(** * The claims *)
(* ===================================================================== *)

(** C1.  Once the connection is up, both scripts send exactly the ten
    bytes [heartbeat\n], then sleep two seconds, turn after turn: as long
    as the first [3 + 2 n] calls return, the log after [n] turns is the
    prelude followed by [n] times send-then-sleep and the script is still
    running.  No run of either script ever reads from the socket. *)
Theorem C1_send_then_sleep_turn_after_turn (a : args) (env : environment) (n : nat) :
  quiet_before (3 + 2 * n) env ->
  heartbeat_bytes = [x68; x65; x61; x72; x74; x62; x65; x61; x74; x0a] /\
  length heartbeat_bytes = 10 /\
  round = [s_sendall heartbeat_bytes; time_sleep 2] /\
  execute (3 + 3 * n) env (heartbeat.main a) = (prelude a ++ rounds n, None) /\
  execute (3 + 3 * n) env (heartbeat_client.main a) = (prelude a ++ rounds n, None) /\
  (forall env' fuel,
      Forall (fun c => is_read c = false) (fst (execute fuel env' (heartbeat.main a))) /\
      Forall (fun c => is_read c = false) (fst (execute fuel env' (heartbeat_client.main a)))).
Proof.
  intros Hq. repeat split; try reflexivity.
  - apply heartbeat_rounds, Hq.
  - apply client_rounds, Hq.
  - apply emits_execute, heartbeat_never_reads.
  - apply emits_execute, client_never_reads.
Qed.

(** Three quiet turns against a peer that never fails. *)
Lemma C1_witness :
  quiet_before (3 + 2 * 3) silent /\
  execute (3 + 3 * 3) silent (heartbeat.main local_peer) =
    (prelude local_peer ++ rounds 3, None) /\
  execute (3 + 3 * 3) silent (heartbeat_client.main local_peer) =
    (prelude local_peer ++ rounds 3, None).
Proof.
  split; [apply silent_quiet|].
  destruct (@C1_send_then_sleep_turn_after_turn local_peer silent 3 (@silent_quiet _))
    as (_ & _ & _ & HA & HB & _).
  split; [exact HA | exact HB].
Defined.

(** C10.  After the connection is up the loop has no exit of its own: in
    a run of [fuel] steps in which none of the (at most [fuel]) calls
    raises, neither script has ended. *)
Theorem C10_loop_ends_only_by_exception (a : args) (env : environment) (fuel : nat) :
  quiet_before fuel env ->
  snd (execute fuel env (heartbeat.main a)) = None /\
  snd (execute fuel env (heartbeat_client.main a)) = None.
Proof.
  intros Hq. split; [apply heartbeat_quiet | apply client_quiet]; exact Hq.
Qed.

(** A hundred steps without a raise: both scripts are still running. *)
Lemma C10_witness :
  quiet_before 100 silent /\
  snd (execute 100 silent (heartbeat.main local_peer)) = None /\
  snd (execute 100 silent (heartbeat_client.main local_peer)) = None.
Proof.
  split; [apply silent_quiet|].
  apply (@C10_loop_ends_only_by_exception local_peer silent 100), silent_quiet.
Defined.

(** C8.  The two scripts are the same on the wire: against the same
    environment and after the same number of steps they have written the
    same payloads with the same pauses between them; and when both runs
    have ended, whatever each printed on the way out, they have written
    the same in all. *)
Theorem C8_same_payloads_same_cadence (a : args) (env : environment) :
  (forall fuel,
      wire (fst (execute fuel env (heartbeat.main a))) =
      wire (fst (execute fuel env (heartbeat_client.main a)))) /\
  (forall fuelA fuelB lgA lgB oA oB,
      execute fuelA env (heartbeat.main a) = (lgA, Some oA) ->
      execute fuelB env (heartbeat_client.main a) = (lgB, Some oB) ->
      wire lgA = wire lgB).
Proof.
  split; [intros fuel; apply mains_wire_equal|].
  intros fuelA fuelB lgA lgB oA oB HA HB.
  apply (execute_more_fuel env fuelB) in HA.
  apply (execute_more_fuel env fuelA) in HB.
  rewrite (Nat.add_comm fuelB fuelA) in HB.
  pose proof (mains_wire_equal a env (fuelA + fuelB)) as H.
  rewrite HA, HB in H. exact H.
Qed.

(** The peer resets the connection at the second send: the scripts print
    different lines but have written the same. *)
Lemma C8_witness :
  execute 9 (only 5 reset) (heartbeat.main local_peer) =
    (prelude local_peer ++ round ++
       [s_sendall heartbeat_bytes; print disconnected_line; s_close], Some Normal) /\
  execute 9 (only 5 reset) (heartbeat_client.main local_peer) =
    (prelude local_peer ++ round ++
       [s_sendall heartbeat_bytes; print lost_line; s_close], Some Normal) /\
  wire (prelude local_peer ++ round ++
          [s_sendall heartbeat_bytes; print disconnected_line; s_close]) =
  wire (prelude local_peer ++ round ++
          [s_sendall heartbeat_bytes; print lost_line; s_close]).
Proof.
  assert (HA : execute 9 (only 5 reset) (heartbeat.main local_peer) =
               (prelude local_peer ++ round ++
                  [s_sendall heartbeat_bytes; print disconnected_line; s_close],
                Some Normal)) by (vm_compute; reflexivity).
  assert (HB : execute 9 (only 5 reset) (heartbeat_client.main local_peer) =
               (prelude local_peer ++ round ++
                  [s_sendall heartbeat_bytes; print lost_line; s_close],
                Some Normal)) by (vm_compute; reflexivity).
  split; [exact HA|]. split; [exact HB|].
  exact (proj2 (C8_same_payloads_same_cadence local_peer (only 5 reset))
           9 9 _ _ Normal Normal HA HB).
Defined.

(** C6.  In both scripts the socket is created exactly once and is
    closed on every exit path.  (i) Every run that has taken a step,
    ended or still going, whatever the environment answers, has created
    the socket exactly once.  (ii) Every run that ends after the socket
    was created, however it ends, has called [close] exactly once, as its
    last call.  (iii) Those ends are there on every path: whenever a call
    after the creation is the first to raise (the connect, the print of
    the connected line, a send or a sleep of any turn; a refusal, a
    disconnect, an interrupt or any other error), both runs end, whatever
    the later calls answer, with the close as the last call. *)
Theorem C6_socket_created_once_closed_last (a : args) :
  (forall env fuel,
      filter is_create (fst (execute (S fuel) env (heartbeat.main a))) =
        [socket_socket] /\
      filter is_create (fst (execute (S fuel) env (heartbeat_client.main a))) =
        [socket_socket]) /\
  (forall env fuel lg o,
      env 0 = None ->
      execute fuel env (heartbeat.main a) = (lg, Some o) \/
      execute fuel env (heartbeat_client.main a) = (lg, Some o) ->
      filter is_create lg = [socket_socket] /\
      filter is_close lg = [s_close] /\
      last lg socket_socket = s_close) /\
  (forall env k e,
      1 <= k -> quiet_before k env -> env k = Some e ->
      exists N, forall f,
        (exists lg o,
            execute (N + f) env (heartbeat.main a) = (lg, Some o) /\
            filter is_close lg = [s_close] /\ last lg socket_socket = s_close) /\
        (exists lg o,
            execute (N + f) env (heartbeat_client.main a) = (lg, Some o) /\
            filter is_close lg = [s_close] /\ last lg socket_socket = s_close)).
Proof.
  assert (Hclosed : forall env fuel lg o,
             env 0 = None ->
             execute fuel env (heartbeat.main a) = (lg, Some o) \/
             execute fuel env (heartbeat_client.main a) = (lg, Some o) ->
             filter is_create lg = [socket_socket] /\
             filter is_close lg = [s_close] /\
             last lg socket_socket = s_close).
  { intros env fuel lg o Hc [H|H].
    - eapply created_once_closed_last;
        [apply (heartbeat_body_inner a) | exact Hc | exact H].
    - eapply created_once_closed_last;
        [apply (client_body_inner a) | exact Hc | exact H]. }
  split; [|split; [exact Hclosed|]].
  - intros env fuel. split;
      [apply heartbeat_created_first | apply client_created_first].
  - intros env k e Hk Hq He.
    destruct (@both_end_after_first_raise a env k e Hk Hq He) as [N HN].
    exists N. intros f. destruct (HN f) as [(lgA & oA & HA) (lgB & oB & HB)].
    split.
    + exists lgA, oA. split; [exact HA|].
      exact (proj2 (Hclosed env (N + f) lgA oA (Hq 0 ltac:(lia)) (or_introl HA))).
    + exists lgB, oB. split; [exact HB|].
      exact (proj2 (Hclosed env (N + f) lgB oB (Hq 0 ltac:(lia)) (or_intror HB))).
Qed.

(** The peer resets the connection at the second send: both scripts have
    created one socket from their first step on, and both end with the
    close as the last call. *)
Lemma C6_witness :
  (filter is_create (fst (execute 1 (only 5 reset) (heartbeat.main local_peer))) =
     [socket_socket] /\
   filter is_create (fst (execute 1 (only 5 reset) (heartbeat_client.main local_peer))) =
     [socket_socket]) /\
  only 5 reset 0 = None /\
  execute 20 (only 5 reset) (heartbeat.main local_peer) =
    (prelude local_peer ++ round ++
       [s_sendall heartbeat_bytes; print disconnected_line; s_close], Some Normal) /\
  filter is_close
    (prelude local_peer ++ round ++
       [s_sendall heartbeat_bytes; print disconnected_line; s_close]) = [s_close] /\
  execute 20 (only 5 reset) (heartbeat_client.main local_peer) =
    (prelude local_peer ++ round ++
       [s_sendall heartbeat_bytes; print lost_line; s_close], Some Normal) /\
  filter is_close
    (prelude local_peer ++ round ++
       [s_sendall heartbeat_bytes; print lost_line; s_close]) = [s_close] /\
  (1 <= 5 /\ quiet_before 5 (only 5 reset) /\ only 5 reset 5 = Some reset) /\
  exists N, forall f,
    (exists lg o,
        execute (N + f) (only 5 reset) (heartbeat.main local_peer) = (lg, Some o) /\
        filter is_close lg = [s_close] /\ last lg socket_socket = s_close) /\
    (exists lg o,
        execute (N + f) (only 5 reset) (heartbeat_client.main local_peer) = (lg, Some o) /\
        filter is_close lg = [s_close] /\ last lg socket_socket = s_close).
Proof.
  destruct (C6_socket_created_once_closed_last local_peer) as (Hi & Hii & Hiii).
  assert (HA : execute 20 (only 5 reset) (heartbeat.main local_peer) =
               (prelude local_peer ++ round ++
                  [s_sendall heartbeat_bytes; print disconnected_line; s_close],
                Some Normal)) by (vm_compute; reflexivity).
  assert (HB : execute 20 (only 5 reset) (heartbeat_client.main local_peer) =
               (prelude local_peer ++ round ++
                  [s_sendall heartbeat_bytes; print lost_line; s_close],
                Some Normal)) by (vm_compute; reflexivity).
  assert (Hq : quiet_before 5 (only 5 reset)).
  { intros i Hi5. unfold only. destruct (Nat.eqb_spec i 5); [lia | reflexivity]. }
  split; [exact (Hi (only 5 reset) 0)|].
  split; [reflexivity|].
  split; [exact HA|].
  split; [exact (proj1 (proj2 (Hii _ _ _ _ eq_refl (or_introl HA))))|].
  split; [exact HB|].
  split; [exact (proj1 (proj2 (Hii _ _ _ _ eq_refl (or_intror HB))))|].
  split; [split; [lia | split; [exact Hq | reflexivity]]|].
  exact (Hiii (only 5 reset) 5 reset ltac:(lia) Hq eq_refl).
Defined.

(** C7.  When the connect fails, both scripts end after that one attempt:
    the run ends within four calls, its log holds a single connect, and
    at no point of the run has anything been sent. *)
Theorem C7_one_attempt_nothing_sent (a : args) (env : environment) (e : exn) :
  env 0 = None ->
  env 1 = Some e ->
  (forall f, exists lg o,
      execute (4 + f) env (heartbeat.main a) = (lg, Some o) /\
      filter is_connect lg = [s_connect (host a) (port a)] /\
      filter is_sendall lg = []) /\
  (forall f, exists lg o,
      execute (4 + f) env (heartbeat_client.main a) = (lg, Some o) /\
      filter is_connect lg = [s_connect (host a) (port a)] /\
      filter is_sendall lg = []) /\
  (forall fuel,
      length (filter is_connect (fst (execute fuel env (heartbeat.main a)))) <= 1 /\
      filter is_sendall (fst (execute fuel env (heartbeat.main a))) = []) /\
  (forall fuel,
      length (filter is_connect (fst (execute fuel env (heartbeat_client.main a)))) <= 1 /\
      filter is_sendall (fst (execute fuel env (heartbeat_client.main a))) = []).
Proof.
  intros Hc He. split; [|split; [|split]].
  - intros f. apply heartbeat_gives_up with (e := e); assumption.
  - intros f. apply client_gives_up with (e := e); assumption.
  - intros fuel. apply (@heartbeat_no_retry a env e Hc He fuel).
  - intros fuel. apply (@client_no_retry a env e Hc He fuel).
Qed.

(** The connect is refused. *)
Lemma C7_witness :
  only 1 refused 0 = None /\
  only 1 refused 1 = Some refused /\
  exists lg o,
    execute (4 + 0) (only 1 refused) (heartbeat_client.main local_peer) = (lg, Some o) /\
    filter is_connect lg = [s_connect "127.0.0.1" 9999] /\
    filter is_sendall lg = [].
Proof.
  split; [reflexivity|]. split; [reflexivity|].
  exact (proj1 (proj2 (@C7_one_attempt_nothing_sent local_peer (only 1 refused) refused
                         eq_refl eq_refl)) 0).
Defined.

(** C9.  In [heartbeat_client.py] an [Exception] raised after the connect
    succeeded, by the print of the connected line or by a send or sleep of
    the loop, that is none of the three errors of the loop's clause, lands
    in the outer clause: the script prints the connect-failure line with
    the error's text, closes the socket and exits with status 1, exactly
    as it does when the connect itself raises that error. *)
Theorem C9_later_fault_reported_as_connect_failure
    (a : args) (env : environment) (m : moment) (e : exn) (f : nat) :
  raises_only_at (call_index m) e env ->
  isinstance e Exception = true ->
  disconnect_error e = false ->
  execute (fuel_through m + 2 + f) env (heartbeat_client.main a) =
    (calls_through a m ++
       [print ("Python: Could not connect to QuPath: " ++ str e); s_close],
     Some (Raised (SysExit 1))) /\
  execute (4 + f) (only 1 e) (heartbeat_client.main a) =
    ([socket_socket; s_connect (host a) (port a);
      print ("Python: Could not connect to QuPath: " ++ str e); s_close],
     Some (Raised (SysExit 1))) /\
  exit_status (Raised (SysExit 1)) = 1%Z.
Proof.
  intros Hr Hex Hd. split; [|split; [|reflexivity]].
  - apply client_fault_reported; [exact Hr | exact Hex |].
    destruct m; [reflexivity | rewrite Hd; reflexivity].
  - apply client_connect_fails; [apply only_raises_only_at | exact Hex].
Qed.

(** The second send finds no route to the host. *)
Lemma C9_witness :
  raises_only_at (call_index (looping (at_send 1))) host_unreachable
    (only 5 host_unreachable) /\
  isinstance host_unreachable Exception = true /\
  disconnect_error host_unreachable = false /\
  execute (fuel_through (looping (at_send 1)) + 2 + 0) (only 5 host_unreachable)
    (heartbeat_client.main local_peer) =
    (prelude local_peer ++ round ++
       [s_sendall heartbeat_bytes;
        print "Python: Could not connect to QuPath: [Errno 113] No route to host";
        s_close],
     Some (Raised (SysExit 1))).
Proof.
  split; [apply only_raises_only_at|]. split; [reflexivity|]. split; [reflexivity|].
  exact (proj1 (@C9_later_fault_reported_as_connect_failure local_peer
                  (only 5 host_unreachable) (looping (at_send 1)) host_unreachable 0
                  (only_raises_only_at 5 host_unreachable) eq_refl eq_refl)).
Defined.

Lemma unhandled_Exception e :
  isinstance e Exception = true -> unhandled (Raised e) = true.
Proof. destruct e as [c t|n]; [reflexivity | cbn; discriminate]. Qed.

(** C3, as the code has it.  When the connect raises an [Exception],
    [heartbeat_client.py] prints the connect-failure line, closes the
    socket and exits with status 1.  [heartbeat.py] has no clause around
    the connect: it closes the socket, prints nothing, and the error
    leaves [main] unhandled, which also ends the process with status 1. *)
Theorem C3_connect_failure_both_nonzero
    (a : args) (env : environment) (e : exn) (f : nat) :
  raises_only_at 1 e env ->
  isinstance e Exception = true ->
  execute (4 + f) env (heartbeat_client.main a) =
    ([socket_socket; s_connect (host a) (port a);
      print ("Python: Could not connect to QuPath: " ++ str e); s_close],
     Some (Raised (SysExit 1))) /\
  exit_status (Raised (SysExit 1)) = 1%Z /\
  execute (4 + f) env (heartbeat.main a) =
    ([socket_socket; s_connect (host a) (port a); s_close], Some (Raised e)) /\
  unhandled (Raised e) = true /\
  exit_status (Raised e) = 1%Z.
Proof.
  intros Hr Hex. repeat split.
  - apply client_connect_fails; assumption.
  - apply (@heartbeat_connect_fails a env e (S f)), Hr.
  - apply unhandled_Exception, Hex.
  - apply exit_status_Exception, Hex.
Qed.

(** The connect is refused. *)
Lemma C3_witness :
  raises_only_at 1 refused (only 1 refused) /\
  isinstance refused Exception = true /\
  execute (4 + 0) (only 1 refused) (heartbeat_client.main local_peer) =
    ([socket_socket; s_connect "127.0.0.1" 9999;
      print "Python: Could not connect to QuPath: [Errno 111] Connection refused";
      s_close],
     Some (Raised (SysExit 1))) /\
  execute (4 + 0) (only 1 refused) (heartbeat.main local_peer) =
    ([socket_socket; s_connect "127.0.0.1" 9999; s_close], Some (Raised refused)).
Proof.
  split; [apply only_raises_only_at|]. split; [reflexivity|].
  destruct (@C3_connect_failure_both_nonzero local_peer (only 1 refused) refused 0
              (only_raises_only_at 1 refused) eq_refl) as (HB & _ & HA & _).
  split; [exact HB | exact HA].
Defined.

(** C3 as stated fails when the connect is refused: neither script exits
    with status 0 (both end with status 1), and [heartbeat.py] prints no
    message at all. *)
Lemma C3_counterexample :
  only 1 refused 0 = None /\
  only 1 refused 1 = Some refused /\
  status (execute 10 (only 1 refused) (heartbeat.main local_peer)) = Some 1%Z /\
  status (execute 10 (only 1 refused) (heartbeat_client.main local_peer)) = Some 1%Z /\
  filter is_print (fst (execute 10 (only 1 refused) (heartbeat.main local_peer))) = [].
Proof. vm_compute. repeat split. Qed.

(** C5, as the code has it.  When a single call raises an [Exception]:
    [heartbeat_client.py] exits with status 1 if that call is the connect
    or the print of the connected line, or a send or sleep raising
    anything but the three errors of the loop's clause, and with status 0
    if a send or sleep raises one of those three.  [heartbeat.py] exits
    with status 0 when a send or sleep raises a broken pipe, a connection
    reset or a keyboard interrupt. *)
Theorem C5_exit_statuses
    (a : args) (env : environment) (m : moment) (e : exn) (f : nat) :
  raises_only_at (call_index m) e env ->
  (isinstance e Exception = true ->
   status (execute (fuel_through m + 2 + f) env (heartbeat_client.main a)) =
     Some (match m with
           | announcing => 1
           | looping _ => if disconnect_error e then 0 else 1
           end)%Z /\
   status (execute (4 + f) (only 1 e) (heartbeat_client.main a)) = Some 1%Z) /\
  (forall s, m = looping s ->
   pipe_or_reset_error e || isinstance e KeyboardInterrupt = true ->
   status (execute (fuel_through m + 2 + f) env (heartbeat.main a)) = Some 0%Z).
Proof.
  intros Hr. split.
  - intros Hex. split.
    + destruct m as [|s].
      * rewrite (@client_fault_reported a env e announcing f Hr Hex eq_refl).
        reflexivity.
      * destruct (disconnect_error e) eqn:Hd.
        -- cbn [fuel_through]. rewrite (@client_disconnect a env e s f Hr Hd).
           reflexivity.
        -- rewrite (@client_fault_reported a env e (looping s) f Hr Hex).
           ++ reflexivity.
           ++ rewrite Hd. reflexivity.
    + rewrite (@client_connect_fails a (only 1 e) e f (only_raises_only_at 1 e) Hex).
      reflexivity.
  - intros s -> Hcaught. cbn [fuel_through call_index] in *.
    rewrite (@heartbeat_fault a env e s f Hr).
    destruct (pipe_or_reset_error e); [reflexivity|].
    cbn [orb] in Hcaught. rewrite Hcaught. reflexivity.
Qed.

(** The first sleep ends in a connection reset. *)
Lemma C5_witness :
  raises_only_at (call_index (looping (at_sleep 0))) reset (only 4 reset) /\
  status (execute (fuel_through (looping (at_sleep 0)) + 2 + 0) (only 4 reset)
            (heartbeat_client.main local_peer)) = Some 0%Z /\
  status (execute (4 + 0) (only 1 reset) (heartbeat_client.main local_peer)) = Some 1%Z /\
  status (execute (fuel_through (looping (at_sleep 0)) + 2 + 0) (only 4 reset)
            (heartbeat.main local_peer)) = Some 0%Z.
Proof.
  split; [apply only_raises_only_at|].
  destruct (@C5_exit_statuses local_peer (only 4 reset) (looping (at_sleep 0)) reset 0
              (only_raises_only_at 4 reset)) as [HB HA].
  destruct (HB eq_refl) as [HB0 HB1].
  split; [exact HB0|]. split; [exact HB1|].
  exact (HA (at_sleep 0) eq_refl eq_refl).
Defined.

(** C5 as stated fails: in [heartbeat_client.py] the connect returns, the
    first send then raises a plain [OSError], and the exit status is 1. *)
Lemma C5_counterexample :
  only 3 host_unreachable 1 = None /\
  execute 10 (only 3 host_unreachable) (heartbeat_client.main local_peer) =
    (prelude local_peer ++
       [s_sendall heartbeat_bytes;
        print "Python: Could not connect to QuPath: [Errno 113] No route to host";
        s_close],
     Some (Raised (SysExit 1))) /\
  status (execute 10 (only 3 host_unreachable) (heartbeat_client.main local_peer)) =
    Some 1%Z.
Proof. vm_compute. repeat split. Qed.

(** C2 fails in [heartbeat.py].  A send or a sleep of the loop, in
    whatever turn, raises [ConnectionAbortedError] (the failing input is
    the first send, [at_send 0]).  [heartbeat.py] names only
    [BrokenPipeError] and [ConnectionResetError]: the error leaves [main]
    unhandled, nothing is printed, the status is 1.
    [heartbeat_client.py], which names all three, reports the lost
    connection and returns. *)
Theorem C2_heartbeat_misses_connection_aborted (a : args) (s : site) (f : nat) :
  execute (3 + cost s + 2 + f) (only (index s) aborted) (heartbeat.main a) =
    (prelude a ++ calls_to s ++ [s_close], Some (Raised aborted)) /\
  unhandled (Raised aborted) = true /\
  exit_status (Raised aborted) = 1%Z /\
  execute (3 + cost s + 2 + f) (only (index s) aborted) (heartbeat_client.main a) =
    (prelude a ++ calls_to s ++ [print lost_line; s_close], Some Normal).
Proof.
  split; [|split; [reflexivity | split; [reflexivity|]]].
  - rewrite (@heartbeat_fault a _ aborted s f (only_raises_only_at _ _)).
    reflexivity.
  - apply (@client_disconnect a _ aborted s f (only_raises_only_at _ _)).
    reflexivity.
Qed.

(** C4 fails in [heartbeat_client.py].  A send or a sleep of the loop, in
    whatever turn, is interrupted (the failing input is the first sleep,
    [at_sleep 0]).  [heartbeat_client.py] has no clause for
    [KeyboardInterrupt], which is not an [Exception]: the socket is
    closed, no message is printed, the interrupt leaves [main] unhandled
    and the status is not 0.  [heartbeat.py] prints the interruption line
    and returns. *)
Theorem C4_client_does_not_catch_interrupt (a : args) (s : site) (f : nat) :
  execute (3 + cost s + 2 + f) (only (index s) interrupt) (heartbeat_client.main a) =
    (prelude a ++ calls_to s ++ [s_close], Some (Raised interrupt)) /\
  unhandled (Raised interrupt) = true /\
  exit_status (Raised interrupt) <> 0%Z /\
  isinstance interrupt Exception = false /\
  execute (3 + cost s + 2 + f) (only (index s) interrupt) (heartbeat.main a) =
    (prelude a ++ calls_to s ++ [print interrupted_line; s_close], Some Normal).
Proof.
  split; [|split; [reflexivity | split; [discriminate | split; [reflexivity|]]]].
  - apply (@client_not_Exception a _ interrupt s f (only_raises_only_at _ _)).
    reflexivity.
  - rewrite (@heartbeat_fault a _ interrupt s f (only_raises_only_at _ _)).
    reflexivity.
Qed.

(** The two failing inputs themselves, evaluated. *)
Example heartbeat_first_send_aborted :
  execute 10 (only 3 aborted) (heartbeat.main local_peer) =
  ([socket_socket; s_connect "127.0.0.1" 9999; print connected_line;
    s_sendall heartbeat_bytes; s_close],
   Some (Raised aborted)).
Proof. vm_compute. reflexivity. Qed.

Example client_first_sleep_interrupted :
  execute 10 (only 4 interrupt) (heartbeat_client.main local_peer) =
  ([socket_socket; s_connect "127.0.0.1" 9999; print connected_line;
    s_sendall heartbeat_bytes; time_sleep 2; s_close],
   Some (Raised interrupt)).
Proof. vm_compute. reflexivity. Qed.

(* ===================================================================== *)
(** * Further properties of the scripts *)
(* ===================================================================== *)

(** Statements that make no call selected by [p] leave the selection of
    the log as it is. *)
Lemma filter_emits (p : call -> bool) (t : py) env fuel w :
  emits (fun c => p c = false) t ->
  filter p (reached (run fuel env t w)) = filter p (log w).
Proof.
  intros Ht. destruct (run fuel env t w) as [[w' f'] r] eqn:E.
  destruct (Ht _ _ _ _ _ _ E) as (_ & l & Hl & _ & HP).
  unfold reached. cbn [fst]. rewrite Hl, filter_app. clear Hl.
  replace (filter p l) with (@nil call); [apply app_nil_r|].
  symmetry. induction HP as [|c l Hc _ IH]; [reflexivity|].
  cbn [filter]. rewrite Hc. exact IH.
Qed.

Lemma filter_closing (p : call -> bool) env res :
  p s_close = false ->
  filter p (reached (closing env res)) = filter p (reached res).
Proof.
  intros Hp. destruct res as [[w f] [o|]]; [|reflexivity]. unfold closing.
  pose proof (@filter_emits p (do s_close) env f w) as H.
  destruct (run f env (do s_close) w) as [[w' f'] [[|e|]|]];
    apply H; apply emits_do; exact Hp.
Qed.

Lemma filter_client_handling (p : call -> bool) env res :
  (forall l, p (print l) = false) ->
  filter p (reached (client_handling env res)) = filter p (reached res).
Proof.
  intros Hp. destruct res as [[w f] [[|e|]|]]; try reflexivity.
  unfold client_handling. apply filter_emits, emits_dispatch.
  unfold sys_exit.
  repeat first [apply emits_seq | apply emits_do | apply emits_Ret
               | apply Forall_cons | apply Forall_nil | intro]; apply Hp.
Qed.

Lemma filter_heartbeat_handling (p : call -> bool) env fuel (t : py) w :
  (forall l, p (print l) = false) ->
  filter p (reached (run fuel env (try_except t heartbeat_clauses) w)) =
  filter p (reached (run fuel env t w)).
Proof.
  intros Hp. rewrite run_try_except.
  destruct (run fuel env t w) as [[w' f'] [[|e|]|]]; try reflexivity.
  apply filter_emits, emits_dispatch.
  repeat first [apply emits_do | apply Forall_cons | apply Forall_nil | intro];
    apply Hp.
Qed.

Lemma reached_execute fuel env (m : py) :
  fst (execute fuel env m) = reached (run fuel env m start).
Proof. apply execute_fst. Qed.

(** X1.  When the socket cannot be created, neither script makes another
    call: no connect, no print, no close; the error leaves [main]
    unhandled, also in [heartbeat_client.py], whose [try] starts only
    after the creation. *)
Theorem X1_no_socket_no_further_call (a : args) (env : environment) (e : exn) (f : nat) :
  env 0 = Some e ->
  execute (1 + f) env (heartbeat.main a) = ([socket_socket], Some (Raised e)) /\
  execute (1 + f) env (heartbeat_client.main a) = ([socket_socket], Some (Raised e)).
Proof.
  intros He. unfold execute, heartbeat.main, heartbeat_client.main, with_socket.
  split; run_calc; reflexivity.
Qed.

(** The process has run out of file descriptors. *)
Lemma X1_witness :
  only 0 too_many_files 0 = Some too_many_files /\
  execute (1 + 0) (only 0 too_many_files) (heartbeat.main local_peer) =
    ([socket_socket], Some (Raised too_many_files)) /\
  execute (1 + 0) (only 0 too_many_files) (heartbeat_client.main local_peer) =
    ([socket_socket], Some (Raised too_many_files)).
Proof.
  split; [reflexivity|].
  exact (@X1_no_socket_no_further_call local_peer (only 0 too_many_files)
           too_many_files 0 eq_refl).
Defined.

Lemma heartbeat_announce_fails a env e f :
  raises_only_at 2 e env ->
  execute (4 + f) env (heartbeat.main a) = (prelude a ++ [s_close], Some (Raised e)).
Proof.
  intros [He Hq]. unfold execute, heartbeat.main, with_socket. cbn [Nat.add].
  rewrite run_seq, run_do. cbn [next start]. rewrite (Hq 0) by lia.
  cbn [reply_outcome]. rewrite run_try_finally.
  rewrite run_seq, run_do. cbn [next record start]. rewrite (Hq 1) by lia.
  cbn [reply_outcome].
  rewrite run_seq, run_do. cbn [next record start]. rewrite He.
  cbn [reply_outcome]. rewrite run_do. cbn [next record start].
  rewrite (Hq 3) by lia. reflexivity.
Qed.

(** X2.  In [heartbeat.py] the [try] starts after the connected line is
    printed.  Whatever the connect or that print raises, of whatever
    class, also an interrupt or a broken pipe that the clauses of the
    loop name, is not caught: the socket is closed, nothing more is
    printed, the error leaves [main] unhandled. *)
Theorem X2_heartbeat_catches_nothing_before_the_loop
    (a : args) (env : environment) (k : nat) (e : exn) (f : nat) :
  k = 1 \/ k = 2 ->
  raises_only_at k e env ->
  execute (4 + f) env (heartbeat.main a) =
    (firstn (S k) (prelude a) ++ [s_close], Some (Raised e)).
Proof.
  intros [-> | ->] Hr.
  - apply (@heartbeat_connect_fails a env e (S f)), Hr.
  - apply heartbeat_announce_fails, Hr.
Qed.

(** The operator interrupts while the connected line is printed. *)
Lemma X2_witness :
  (2 = 1 \/ 2 = 2) /\
  raises_only_at 2 interrupt (only 2 interrupt) /\
  execute (4 + 0) (only 2 interrupt) (heartbeat.main local_peer) =
    ([socket_socket; s_connect "127.0.0.1" 9999; print connected_line; s_close],
     Some (Raised interrupt)).
Proof.
  split; [right; reflexivity|]. split; [apply only_raises_only_at|].
  exact (@X2_heartbeat_catches_nothing_before_the_loop local_peer (only 2 interrupt)
           2 interrupt 0 (or_intror eq_refl) (only_raises_only_at 2 interrupt)).
Defined.

Lemma client_connect_not_Exception a env e f :
  raises_only_at 1 e env -> isinstance e Exception = false ->
  execute (3 + f) env (heartbeat_client.main a) =
  ([socket_socket; s_connect (host a) (port a); s_close], Some (Raised e)).
Proof.
  intros [He Hq] Hex. unfold execute, heartbeat_client.main. cbn [Nat.add].
  rewrite run_seq, run_do. cbn [next start]. rewrite (Hq 0) by lia.
  cbn [reply_outcome]. rewrite run_try_finally, run_try_except.
  rewrite run_seq, run_do. cbn [next record start]. rewrite He.
  cbn [reply_outcome]. rewrite dispatch_client, Hex, run_Ret, run_do.
  cbn [next record start]. rewrite (Hq 2) by lia. reflexivity.
Qed.

Lemma client_announce_not_Exception a env e f :
  raises_only_at 2 e env -> isinstance e Exception = false ->
  execute (4 + f) env (heartbeat_client.main a) =
  (prelude a ++ [s_close], Some (Raised e)).
Proof.
  intros [He Hq] Hex. unfold execute, heartbeat_client.main. cbn [Nat.add].
  rewrite run_seq, run_do. cbn [next start]. rewrite (Hq 0) by lia.
  cbn [reply_outcome]. rewrite run_try_finally, run_try_except.
  rewrite run_seq, run_do. cbn [next record start]. rewrite (Hq 1) by lia.
  cbn [reply_outcome].
  rewrite run_seq, run_do. cbn [next record start]. rewrite He.
  cbn [reply_outcome]. rewrite dispatch_client, Hex, run_Ret, run_do.
  cbn [next record start]. rewrite (Hq 3) by lia. reflexivity.
Qed.

(** X4.  [heartbeat_client.py] reports nothing that is not an
    [Exception]: when the connect, the print of the connected line, or a
    send or sleep of any turn raises such an error (an interrupt, a
    [SystemExit]), no clause matches, no line is printed for it, only
    [finally] closes the socket, and the error leaves [main]. *)
Theorem X4_client_lets_non_Exception_through
    (a : args) (env : environment) (e : exn) (f : nat) :
  isinstance e Exception = false ->
  (raises_only_at 1 e env ->
   execute (3 + f) env (heartbeat_client.main a) =
     ([socket_socket; s_connect (host a) (port a); s_close], Some (Raised e))) /\
  (forall m, raises_only_at (call_index m) e env ->
   execute (fuel_through m + 2 + f) env (heartbeat_client.main a) =
     (calls_through a m ++ [s_close], Some (Raised e))).
Proof.
  intros Hex. split.
  - intros Hr. apply client_connect_not_Exception; assumption.
  - intros [|s] Hr; cbn [call_index fuel_through calls_through] in *.
    + apply (@client_announce_not_Exception a env e (S f)); assumption.
    + rewrite <- app_assoc. apply client_not_Exception; assumption.
Qed.

(** The operator interrupts the connect. *)
Lemma X4_witness :
  isinstance interrupt Exception = false /\
  raises_only_at 1 interrupt (only 1 interrupt) /\
  execute (3 + 0) (only 1 interrupt) (heartbeat_client.main local_peer) =
    ([socket_socket; s_connect "127.0.0.1" 9999; s_close], Some (Raised interrupt)).
Proof.
  split; [reflexivity|]. split; [apply only_raises_only_at|].
  exact (proj1 (@X4_client_lets_non_Exception_through local_peer (only 1 interrupt)
                  interrupt 0 eq_refl) (only_raises_only_at 1 interrupt)).
Defined.

(** X5.  What [heartbeat.py] does when a send or a sleep of any turn
    raises, by the class of the error: for a broken pipe or a connection
    reset it prints the disconnected line, for an interrupt the
    interrupted line, and returns; any other error (a time-out, a plain
    [OSError], a connection abort) leaves [main] unhandled without a
    line.  The socket is closed in each case, and exactly one line at
    most is printed. *)
Theorem X5_heartbeat_loop_fault_by_class
    (a : args) (env : environment) (s : site) (e : exn) (f : nat) :
  raises_only_at (index s) e env ->
  execute (3 + cost s + 2 + f) env (heartbeat.main a) =
    if pipe_or_reset_error e
    then (prelude a ++ calls_to s ++ [print disconnected_line; s_close], Some Normal)
    else if isinstance e KeyboardInterrupt
    then (prelude a ++ calls_to s ++ [print interrupted_line; s_close], Some Normal)
    else (prelude a ++ calls_to s ++ [s_close], Some (Raised e)).
Proof. apply heartbeat_fault. Qed.

(** The third send times out. *)
Lemma X5_witness :
  raises_only_at (index (at_send 2)) timed_out (only 7 timed_out) /\
  execute (3 + cost (at_send 2) + 2 + 0) (only 7 timed_out) (heartbeat.main local_peer) =
    (prelude local_peer ++ rounds 2 ++ [s_sendall heartbeat_bytes; s_close],
     Some (Raised timed_out)).
Proof.
  split; [apply only_raises_only_at|].
  pose proof (@X5_heartbeat_loop_fault_by_class local_peer (only 7 timed_out)
                (at_send 2) timed_out 0 (only_raises_only_at 7 timed_out)) as H.
  cbn [pipe_or_reset_error] in H. rewrite H. reflexivity.
Defined.

(** A [close] is appended at most once. *)
Lemma closing_reached env res :
  exists t, reached (closing env res) = reached res ++ t /\
            (t = [] \/ t = [s_close]).
Proof.
  destruct res as [[w f] [o|]]; [|exists []; rewrite app_nil_r; auto].
  unfold closing. destruct f as [|f].
  - rewrite run_do_O. exists []. rewrite app_nil_r. auto.
  - rewrite run_do. exists [s_close].
    destruct (reply_outcome (env (next w))); auto.
Qed.

(** The outer clause of [heartbeat_client.py] only prints. *)
Lemma client_handling_reached env res :
  exists h, reached (client_handling env res) = reached res ++ h /\
            Forall (fun c => in_session c = true) h.
Proof.
  destruct res as [[w f] [[|e|]|]];
    try (exists []; rewrite app_nil_r; split; [reflexivity | constructor]).
  unfold client_handling.
  destruct (run f env (dispatch client_clauses e) w) as [[w' f'] r] eqn:E.
  assert (Hd : emits (fun c => in_session c = true) (dispatch client_clauses e))
    by (apply emits_dispatch; emits_auto).
  destruct (Hd _ _ _ _ _ _ E) as (_ & h & Hh & _ & HP).
  exists h. split; [exact Hh | exact HP].
Qed.

Lemma heartbeat_session :
  emits (fun c => in_session c = true)
    (do (print "Python: Connected to QuPath workflow, sending heartbeats.") ;;
     try_except (while_True beat) heartbeat_clauses)%py.
Proof. emits_auto. Qed.

Lemma client_session :
  emits (fun c => in_session c = true)
    (do (print "Python: Connected to QuPath workflow, sending heartbeats.") ;;
     while_True guarded_beat)%py.
Proof. emits_auto. Qed.

(** From the form of the log to the counts. *)
Lemma one_session_counts a lg :
  one_session a lg ->
  length (filter is_create lg) <= 1 /\
  length (filter is_connect lg) <= 1 /\
  length (filter is_close lg) <= 1.
Proof.
  assert (Hs : forall l, Forall (fun c => in_session c = true) l ->
                 filter is_create l = [] /\ filter is_connect l = [] /\
                 filter is_close l = []).
  { induction 1 as [|c l Hc _ (IH1 & IH2 & IH3)]; [repeat split|].
    destruct c; try discriminate Hc; cbn [filter is_create is_connect is_close];
      auto. }
  intros [-> | (l & t & -> & Ht & Hl)]; [cbn; lia|].
  cbn [filter is_create is_connect is_close]. rewrite !filter_app.
  destruct Hl as [-> | (l' & -> & Hl')];
    [|destruct (Hs _ Hl') as (H1 & H2 & H3);
      cbn [filter is_create is_connect is_close]; rewrite H1, H2, H3];
    destruct Ht as [-> | ->]; cbn; lia.
Qed.

Lemma heartbeat_one_session a env fuel :
  one_session a (fst (execute fuel env (heartbeat.main a))).
Proof.
  rewrite reached_execute. unfold heartbeat.main, with_socket. rewrite run_seq.
  destruct fuel as [|fuel]; [rewrite run_do_O; left; reflexivity|].
  rewrite run_do. right. destruct (env (next start)); cbn [reply_outcome].
  { exists [], []. cbn. auto. }
  rewrite run_closing.
  match goal with
  | |- context [closing env ?r] =>
      destruct (closing_reached env r) as (t & Ht & Htt); rewrite Ht; clear Ht
  end.
  rewrite run_seq.
  destruct fuel as [|fuel];
    [rewrite run_do_O; exists [], t; cbn; auto|].
  rewrite run_do.
  destruct (env (next (record socket_socket start))); cbn [reply_outcome].
  { exists [s_connect (host a) (port a)], t. cbn. repeat split; auto.
    right. eexists. split; [reflexivity | constructor]. }
  match goal with
  | |- context [run fuel env ?rest ?w] =>
      destruct (run fuel env rest w) as [[w' f'] r] eqn:E
  end.
  destruct (heartbeat_session _ _ _ E) as (_ & l' & Hl' & _ & HP).
  exists (s_connect (host a) (port a) :: l'), t.
  unfold reached. cbn [fst]. rewrite Hl'. cbn. repeat split; auto.
  right. eexists. split; [reflexivity | exact HP].
Qed.

Lemma client_one_session a env fuel :
  one_session a (fst (execute fuel env (heartbeat_client.main a))).
Proof.
  rewrite reached_execute. unfold heartbeat_client.main. rewrite run_seq.
  destruct fuel as [|fuel]; [rewrite run_do_O; left; reflexivity|].
  rewrite run_do. right. destruct (env (next start)); cbn [reply_outcome].
  { exists [], []. cbn. auto. }
  rewrite run_closing.
  match goal with
  | |- context [closing env ?r] =>
      destruct (closing_reached env r) as (t & Ht & Htt); rewrite Ht; clear Ht
  end.
  rewrite run_client_handling, run_seq.
  destruct fuel as [|fuel];
    [rewrite run_do_O; exists [], t; cbn; auto|].
  rewrite run_do.
  match goal with
  | |- context [client_handling env ?r] =>
      destruct (client_handling_reached env r) as (h & Hh & HPh);
      rewrite Hh; clear Hh
  end.
  destruct (env (next (record socket_socket start))); cbn [reply_outcome].
  { exists (s_connect (host a) (port a) :: h), t. cbn. repeat split; auto.
    right. eexists. split; [reflexivity | exact HPh]. }
  match goal with
  | |- context [run fuel env ?rest ?w] =>
      destruct (run fuel env rest w) as [[w' f'] r] eqn:E
  end.
  destruct (client_session _ _ _ E) as (_ & l' & Hl' & _ & HP).
  exists (s_connect (host a) (port a) :: l' ++ h), t.
  unfold reached. cbn [fst]. rewrite Hl'. cbn. rewrite <- app_assoc.
  repeat split; auto.
  right. eexists. split; [reflexivity | apply Forall_app; auto].
Qed.

(** X6.  One socket, one connection: in every run of either script,
    whatever the environment answers and wherever the run stands, the log
    is the creation of the socket, then the connect to the given
    endpoint, then only prints, sends and sleeps, then the close.  So
    there is never a second socket, never a reconnect after a lost
    connection, and nothing is done with the socket after it is
    closed. *)
Theorem X6_one_socket_one_connection (a : args) (env : environment) (fuel : nat) :
  (one_session a (fst (execute fuel env (heartbeat.main a))) /\
   one_session a (fst (execute fuel env (heartbeat_client.main a)))) /\
  (length (filter is_create (fst (execute fuel env (heartbeat.main a)))) <= 1 /\
   length (filter is_connect (fst (execute fuel env (heartbeat.main a)))) <= 1 /\
   length (filter is_close (fst (execute fuel env (heartbeat.main a)))) <= 1) /\
  (length (filter is_create (fst (execute fuel env (heartbeat_client.main a)))) <= 1 /\
   length (filter is_connect (fst (execute fuel env (heartbeat_client.main a)))) <= 1 /\
   length (filter is_close (fst (execute fuel env (heartbeat_client.main a)))) <= 1).
Proof.
  pose proof (heartbeat_one_session a env fuel) as HA.
  pose proof (client_one_session a env fuel) as HB.
  split; [split; assumption|].
  split; eapply one_session_counts; eassumption.
Qed.

Lemma loop_extends env fuel w :
  exists l, reached (run fuel env (while_True beat) w) = log w ++ l.
Proof.
  destruct (run fuel env (while_True beat) w) as [[w' f'] r] eqn:E.
  assert (H : emits (fun _ => True) (while_True beat)) by (emits_auto; exact I).
  destruct (H _ _ _ _ _ _ E) as (_ & l & Hl & _). exists l. exact Hl.
Qed.

Lemma guarded_loop_extends env fuel w :
  exists l, reached (run fuel env (while_True guarded_beat) w) = log w ++ l.
Proof.
  destruct (run fuel env (while_True guarded_beat) w) as [[w' f'] r] eqn:E.
  assert (H : emits (fun _ => True) (while_True guarded_beat))
    by (emits_auto; exact I).
  destruct (H _ _ _ _ _ _ E) as (_ & l & Hl & _). exists l. exact Hl.
Qed.

(** The first thing either loop does, given any fuel at all, is to send. *)
Lemma loop_sends_first env f w :
  exists l, reached (run (S f) env (while_True beat) w) =
            log w ++ s_sendall heartbeat_bytes :: l.
Proof.
  rewrite run_while_True, run_seq, run_do.
  destruct (env (next w)); cbn [reply_outcome]; [exists []; reflexivity|].
  destruct f as [|f]; [rewrite run_do_O; exists []; reflexivity|].
  rewrite run_do.
  destruct (env (next (record (s_sendall heartbeat_bytes) w)));
    cbn [reply_outcome].
  - exists [time_sleep 2]. unfold reached. cbn. rewrite <- app_assoc. reflexivity.
  - destruct f as [|f].
    + exists [time_sleep 2]. unfold reached. cbn. rewrite <- app_assoc. reflexivity.
    + destruct (loop_extends env f
                  (record (time_sleep 2) (record (s_sendall heartbeat_bytes) w)))
        as (l & Hl).
      rewrite Hl. exists (time_sleep 2 :: l). cbn. rewrite <- !app_assoc.
      reflexivity.
Qed.

Lemma guarded_loop_sends_first env f w :
  exists l, reached (run (S f) env (while_True guarded_beat) w) =
            log w ++ s_sendall heartbeat_bytes :: l.
Proof.
  rewrite run_while_True, run_try_except, run_seq, run_do.
  destruct (env (next w)) as [e|]; cbn [reply_outcome].
  - unfold dispatch. cbn [find]. rewrite catches_lost.
    destruct (disconnect_error e);
      [|rewrite run_Ret; exists []; reflexivity].
    cbn [handler]. rewrite run_seq.
    destruct f as [|f]; [rewrite run_do_O; exists []; reflexivity|].
    rewrite run_do. exists [print lost_line].
    destruct (env (next (record (s_sendall heartbeat_bytes) w)));
      cbn [reply_outcome]; rewrite ?run_break; unfold reached; cbn;
      rewrite <- app_assoc; reflexivity.
  - destruct f as [|f]; [rewrite run_do_O; exists []; reflexivity|].
    rewrite run_do.
    destruct (env (next (record (s_sendall heartbeat_bytes) w))) as [e|];
      cbn [reply_outcome].
    + unfold dispatch. cbn [find]. rewrite catches_lost.
      destruct (disconnect_error e).
      * cbn [handler]. rewrite run_seq.
        destruct f as [|f].
        -- rewrite run_do_O. exists [time_sleep 2]. unfold reached. cbn.
           rewrite <- app_assoc. reflexivity.
        -- rewrite run_do. exists [time_sleep 2; print lost_line].
           destruct (env (next (record (time_sleep 2)
                                  (record (s_sendall heartbeat_bytes) w))));
             cbn [reply_outcome]; rewrite ?run_break; unfold reached; cbn;
             rewrite <- !app_assoc; reflexivity.
      * rewrite run_Ret. exists [time_sleep 2]. unfold reached. cbn.
        rewrite <- app_assoc. reflexivity.
    + destruct f as [|f].
      * exists [time_sleep 2]. unfold reached. cbn. rewrite <- app_assoc.
        reflexivity.
      * destruct (guarded_loop_extends env f
                    (record (time_sleep 2) (record (s_sendall heartbeat_bytes) w)))
          as (l & Hl).
        rewrite Hl. exists (time_sleep 2 :: l). cbn. rewrite <- !app_assoc.
        reflexivity.
Qed.

(** The clauses of [heartbeat.py] only append to the log. *)
Lemma heartbeat_handling_reached env fuel (t : py) w :
  exists h, reached (run fuel env (try_except t heartbeat_clauses) w) =
            reached (run fuel env t w) ++ h.
Proof.
  rewrite run_try_except.
  destruct (run fuel env t w) as [[w' f'] [[|e|]|]];
    try (exists []; rewrite app_nil_r; reflexivity).
  destruct (run f' env (dispatch heartbeat_clauses e) w') as [[w'' f''] r] eqn:E.
  assert (Hd : emits (fun _ => True) (dispatch heartbeat_clauses e))
    by (apply emits_dispatch; emits_auto; exact I).
  destruct (Hd _ _ _ _ _ _ E) as (_ & h & Hh & _). exists h. exact Hh.
Qed.

Ltac no_send_yet t Htt :=
  left; unfold reached; cbn [fst log record start app];
  rewrite ?filter_app; destruct Htt as [-> | ->]; reflexivity.

Lemma heartbeat_sends_after_prelude a env fuel :
  filter is_sendall (fst (execute fuel env (heartbeat.main a))) = [] \/
  (quiet_before 3 env /\
   exists l, fst (execute fuel env (heartbeat.main a)) =
             prelude a ++ s_sendall heartbeat_bytes :: l).
Proof.
  rewrite reached_execute. unfold heartbeat.main, with_socket. rewrite run_seq.
  destruct fuel as [|fuel]; [rewrite run_do_O; left; reflexivity|].
  rewrite run_do. cbn [next start].
  destruct (env 0) eqn:E0; cbn [reply_outcome]; [left; reflexivity|].
  rewrite run_closing.
  match goal with
  | |- context [closing env ?r] =>
      destruct (closing_reached env r) as (t & Ht & Htt); rewrite Ht; clear Ht
  end.
  rewrite run_seq.
  destruct fuel as [|fuel]; [rewrite run_do_O; no_send_yet t Htt|].
  rewrite run_do. cbn [next record start].
  destruct (env 1) eqn:E1; cbn [reply_outcome]; [no_send_yet t Htt|].
  rewrite run_seq.
  destruct fuel as [|fuel]; [rewrite run_do_O; no_send_yet t Htt|].
  rewrite run_do. cbn [next record start].
  destruct (env 2) eqn:E2; cbn [reply_outcome]; [no_send_yet t Htt|].
  destruct fuel as [|fuel].
  { rewrite run_try_except, run_while_True, run_seq, run_do_O.
    no_send_yet t Htt. }
  right. split.
  { intros i Hi. destruct i as [|[|[|i]]]; [assumption..|lia]. }
  match goal with
  | |- context [run (S fuel) env (try_except ?l _) ?w] =>
      destruct (heartbeat_handling_reached env (S fuel) l w) as (h & Hh);
      rewrite Hh; clear Hh;
      destruct (loop_sends_first env fuel w) as (l' & Hl'); rewrite Hl'
  end.
  exists (l' ++ h ++ t). cbn. rewrite <- !app_assoc. reflexivity.
Qed.

Lemma client_sends_after_prelude a env fuel :
  filter is_sendall (fst (execute fuel env (heartbeat_client.main a))) = [] \/
  (quiet_before 3 env /\
   exists l, fst (execute fuel env (heartbeat_client.main a)) =
             prelude a ++ s_sendall heartbeat_bytes :: l).
Proof.
  rewrite reached_execute. unfold heartbeat_client.main. rewrite run_seq.
  destruct fuel as [|fuel]; [rewrite run_do_O; left; reflexivity|].
  rewrite run_do. cbn [next start].
  destruct (env 0) eqn:E0; cbn [reply_outcome]; [left; reflexivity|].
  rewrite run_closing.
  match goal with
  | |- context [closing env ?r] =>
      destruct (closing_reached env r) as (t & Ht & Htt); rewrite Ht; clear Ht
  end.
  rewrite run_client_handling.
  match goal with
  | |- context [client_handling env ?r] =>
      destruct (client_handling_reached env r) as (h & Hh & HPh);
      pose proof (@filter_client_handling is_sendall env r (fun _ => eq_refl)) as Hf;
      rewrite Hh in Hf |- *; clear Hh
  end.
  assert (Hnone : forall lg, filter is_sendall lg = [] ->
                    filter is_sendall (lg ++ h) = filter is_sendall lg ->
                    filter is_sendall ((lg ++ h) ++ t) = []).
  { intros lg H1 H2. rewrite filter_app, H2, H1.
    destruct Htt as [-> | ->]; reflexivity. }
  revert Hf. rewrite run_seq.
  destruct fuel as [|fuel];
    [rewrite run_do_O; intros Hf; left; apply Hnone; [reflexivity | exact Hf]|].
  rewrite run_do. cbn [next record start].
  destruct (env 1) eqn:E1; cbn [reply_outcome];
    [intros Hf; left; apply Hnone; [reflexivity | exact Hf]|].
  rewrite run_seq.
  destruct fuel as [|fuel];
    [rewrite run_do_O; intros Hf; left; apply Hnone; [reflexivity | exact Hf]|].
  rewrite run_do. cbn [next record start].
  destruct (env 2) eqn:E2; cbn [reply_outcome];
    [intros Hf; left; apply Hnone; [reflexivity | exact Hf]|].
  destruct fuel as [|fuel].
  { rewrite run_while_True, run_try_except, run_seq, run_do_O.
    intros Hf; left; apply Hnone; [reflexivity | exact Hf]. }
  intros _. right. split.
  { intros i Hi. destruct i as [|[|[|i]]]; [assumption..|lia]. }
  match goal with
  | |- context [run (S fuel) env (while_True _) ?w] =>
      destruct (guarded_loop_sends_first env fuel w) as (l' & Hl'); rewrite Hl'
  end.
  exists (l' ++ h ++ t). cbn. rewrite <- !app_assoc. reflexivity.
Qed.

(** X7.  Nothing is sent before the connection is up and announced: in
    every run of either script, either no heartbeat has been sent, or the
    socket creation, the connect and the print of the connected line all
    returned and the first heartbeat is the very next call. *)
Theorem X7_first_heartbeat_follows_the_prelude (a : args) (env : environment) (fuel : nat) :
  (filter is_sendall (fst (execute fuel env (heartbeat.main a))) = [] \/
   (quiet_before 3 env /\
    exists l, fst (execute fuel env (heartbeat.main a)) =
              prelude a ++ s_sendall heartbeat_bytes :: l)) /\
  (filter is_sendall (fst (execute fuel env (heartbeat_client.main a))) = [] \/
   (quiet_before 3 env /\
    exists l, fst (execute fuel env (heartbeat_client.main a)) =
              prelude a ++ s_sendall heartbeat_bytes :: l)).
Proof.
  split; [apply heartbeat_sends_after_prelude | apply client_sends_after_prelude].
Qed.

(** Turn by turn the loop writes send, sleep, send, sleep, ... and stops,
    if it stops, after a send or after a sleep. *)
Lemma loop_alternates env :
  forall fuel w,
    exists n,
      wire (reached (run fuel env (while_True beat) w)) =
        wire (log w) ++ rounds n \/
      wire (reached (run fuel env (while_True beat) w)) =
        wire (log w) ++ rounds n ++ [s_sendall heartbeat_bytes].
Proof.
  induction fuel as [fuel IH] using lt_wf_ind. intros w.
  rewrite run_while_True, run_seq.
  destruct fuel as [|fuel].
  { rewrite run_do_O. exists 0. left. cbn. rewrite app_nil_r. reflexivity. }
  rewrite run_do.
  assert (H1 : wire (log (record (s_sendall heartbeat_bytes) w)) =
               wire (log w) ++ rounds 0 ++ [s_sendall heartbeat_bytes])
    by (cbn [log record]; rewrite wire_app; reflexivity).
  destruct (env (next w)); cbn [reply_outcome]; [exists 0; right; exact H1|].
  destruct fuel as [|fuel]; [rewrite run_do_O; exists 0; right; exact H1|].
  rewrite run_do.
  assert (H2 : wire (log (record (time_sleep 2)
                            (record (s_sendall heartbeat_bytes) w))) =
               wire (log w) ++ rounds 1).
  { cbn [log record]. rewrite !wire_app, <- app_assoc. reflexivity. }
  destruct (env (next (record (s_sendall heartbeat_bytes) w)));
    cbn [reply_outcome]; [exists 1; left; exact H2|].
  destruct fuel as [|fuel]; [exists 1; left; exact H2|].
  destruct (IH fuel ltac:(lia)
              (record (time_sleep 2) (record (s_sendall heartbeat_bytes) w)))
    as (n & [Hn | Hn]); exists (S n); [left | right];
    rewrite Hn, H2, <- app_assoc; reflexivity.
Qed.

Lemma heartbeat_alternates a env fuel :
  alternating (wire (fst (execute fuel env (heartbeat.main a)))).
Proof.
  rewrite reached_execute. unfold heartbeat.main, with_socket. rewrite run_seq.
  destruct fuel as [|fuel]; [rewrite run_do_O; exists 0; left; reflexivity|].
  rewrite run_do.
  destruct (env (next start)); cbn [reply_outcome]; [exists 0; left; reflexivity|].
  rewrite run_closing, wire_closing, run_seq.
  destruct fuel as [|fuel]; [rewrite run_do_O; exists 0; left; reflexivity|].
  rewrite run_do.
  destruct (env (next (record socket_socket start))); cbn [reply_outcome];
    [exists 0; left; reflexivity|].
  rewrite run_seq.
  destruct fuel as [|fuel]; [rewrite run_do_O; exists 0; left; reflexivity|].
  rewrite run_do.
  destruct (env (next (record (s_connect (host a) (port a))
                         (record socket_socket start))));
    cbn [reply_outcome]; [exists 0; left; reflexivity|].
  rewrite wire_heartbeat_handling.
  match goal with
  | |- context [run fuel env (while_True _) ?w] =>
      destruct (loop_alternates env fuel w) as (n & Hn)
  end.
  exists n. exact Hn.
Qed.

(** X8.  On the wire every run is an alternation: whatever the
    environment answers and wherever the run stands, the sends and sleeps
    of either script, in order, are some number of full rounds (send
    [heartbeat\n], sleep 2) followed by at most one more send.  No two
    heartbeats without a pause between them, no pause before the first
    heartbeat. *)
Theorem X8_sends_and_sleeps_alternate (a : args) (env : environment) (fuel : nat) :
  alternating (wire (fst (execute fuel env (heartbeat.main a)))) /\
  alternating (wire (fst (execute fuel env (heartbeat_client.main a)))).
Proof.
  split; [|rewrite <- mains_wire_equal]; apply heartbeat_alternates.
Qed.

(** The loop of [heartbeat.py] never ends of its own: when it ends, it
    raises. *)
Lemma loop_only_raises env :
  forall fuel w w' f' o,
    run fuel env (while_True beat) w = (w', f', Some o) ->
    exists e, o = Raised e.
Proof.
  induction fuel as [fuel IH] using lt_wf_ind. intros w w' f' o H.
  rewrite run_while_True, run_seq in H.
  destruct fuel as [|fuel]; [rewrite run_do_O in H; discriminate|].
  rewrite run_do in H.
  destruct (env (next w)) as [e|]; cbn [reply_outcome] in H;
    [exists e; congruence|].
  destruct fuel as [|fuel]; [rewrite run_do_O in H; discriminate|].
  rewrite run_do in H.
  destruct (env (next (record (s_sendall heartbeat_bytes) w))) as [e|];
    cbn [reply_outcome] in H; [exists e; congruence|].
  destruct fuel as [|fuel]; [discriminate|].
  apply (IH fuel ltac:(lia) _ _ _ _ H).
Qed.

(** The loop of [heartbeat_client.py] ends by raising, or normally right
    after printing the lost-connection line. *)
Lemma guarded_loop_ends env :
  forall fuel w w' f' o,
    run fuel env (while_True guarded_beat) w = (w', f', Some o) ->
    (exists e, o = Raised e) \/
    (o = Normal /\ exists l, log w' = l ++ [print lost_line]).
Proof.
  induction fuel as [fuel IH] using lt_wf_ind. intros w w' f' o H.
  rewrite run_while_True, run_try_except, run_seq in H.
  destruct fuel as [|fuel]; [rewrite run_do_O in H; discriminate|].
  rewrite run_do in H.
  destruct (env (next w)) as [e|]; cbn [reply_outcome] in H.
  { unfold dispatch in H. cbn [find] in H. rewrite catches_lost in H.
    destruct (disconnect_error e);
      [|rewrite run_Ret in H; left; exists e; congruence].
    cbn [handler] in H. rewrite run_seq in H.
    destruct fuel as [|fuel]; [rewrite run_do_O in H; discriminate|].
    rewrite run_do in H.
    destruct (env (next (record (s_sendall heartbeat_bytes) w))) as [e'|];
      cbn [reply_outcome] in H; [left; exists e'; congruence|].
    rewrite run_break in H. right. injection H as <- _ <-.
    split; [reflexivity|]. eexists. reflexivity. }
  destruct fuel as [|fuel]; [rewrite run_do_O in H; discriminate|].
  rewrite run_do in H.
  destruct (env (next (record (s_sendall heartbeat_bytes) w))) as [e|];
    cbn [reply_outcome] in H.
  { unfold dispatch in H. cbn [find] in H. rewrite catches_lost in H.
    destruct (disconnect_error e);
      [|rewrite run_Ret in H; left; exists e; congruence].
    cbn [handler] in H. rewrite run_seq in H.
    destruct fuel as [|fuel]; [rewrite run_do_O in H; discriminate|].
    rewrite run_do in H.
    destruct (env (next (record (time_sleep 2)
                           (record (s_sendall heartbeat_bytes) w)))) as [e'|];
      cbn [reply_outcome] in H; [left; exists e'; congruence|].
    rewrite run_break in H. right. injection H as <- _ <-.
    split; [reflexivity|]. eexists. reflexivity. }
  destruct fuel as [|fuel]; [discriminate|].
  apply (IH fuel ltac:(lia) _ _ _ _ H).
Qed.

(** After [closing], a normal end means the statements before ended
    normally and the last call is the close. *)
Lemma closing_Normal env res w f :
  closing env res = (w, f, Some Normal) ->
  exists w1 f1, res = (w1, f1, Some Normal) /\ log w = log w1 ++ [s_close].
Proof.
  destruct res as [[w1 f1] [o|]]; [|discriminate]. unfold closing.
  destruct f1 as [|f1]; [rewrite run_do_O; discriminate|].
  rewrite run_do. destruct (env (next w1)); cbn [reply_outcome]; [discriminate|].
  intros H. injection H as <- _ ->. exists w1, (S f1). split; reflexivity.
Qed.

Lemma heartbeat_returns_after_a_line a env fuel lg :
  execute fuel env (heartbeat.main a) = (lg, Some Normal) ->
  exists l, lg = l ++ [print disconnected_line; s_close] \/
            lg = l ++ [print interrupted_line; s_close].
Proof.
  unfold execute. intros H.
  destruct (run fuel env (heartbeat.main a) start) as [[w f] r] eqn:E.
  injection H as <- ->. revert E.
  unfold heartbeat.main, with_socket. rewrite run_seq.
  destruct fuel as [|fuel]; [rewrite run_do_O; discriminate|].
  rewrite run_do.
  destruct (env (next start)); cbn [reply_outcome]; [discriminate|].
  rewrite run_closing. intros E.
  apply closing_Normal in E. destruct E as (w1 & f1 & E & ->). revert E.
  rewrite run_seq.
  destruct fuel as [|fuel]; [rewrite run_do_O; discriminate|].
  rewrite run_do.
  destruct (env (next (record socket_socket start))); cbn [reply_outcome];
    [discriminate|].
  rewrite run_seq.
  destruct fuel as [|fuel]; [rewrite run_do_O; discriminate|].
  rewrite run_do.
  destruct (env (next (record (s_connect (host a) (port a))
                         (record socket_socket start))));
    cbn [reply_outcome]; [discriminate|].
  rewrite run_try_except.
  match goal with
  | |- context [run fuel env (while_True _) ?w0] =>
      destruct (run fuel env (while_True beat) w0) as [[wl fl] [ol|]] eqn:EL;
      [|discriminate]
  end.
  destruct (loop_only_raises _ _ _ EL) as [e ->].
  rewrite dispatch_heartbeat.
  destruct (pipe_or_reset_error e); [|destruct (isinstance e KeyboardInterrupt)].
  - destruct fl as [|fl]; [rewrite run_do_O; discriminate|].
    rewrite run_do. intros H. injection H as <- _ _.
    exists (log wl). left. cbn [log record]. rewrite <- app_assoc. reflexivity.
  - destruct fl as [|fl]; [rewrite run_do_O; discriminate|].
    rewrite run_do. intros H. injection H as <- _ _.
    exists (log wl). right. cbn [log record]. rewrite <- app_assoc. reflexivity.
  - rewrite run_Ret. discriminate.
Qed.

Lemma client_returns_after_a_line a env fuel lg :
  execute fuel env (heartbeat_client.main a) = (lg, Some Normal) ->
  exists l, lg = l ++ [print lost_line; s_close].
Proof.
  unfold execute. intros H.
  destruct (run fuel env (heartbeat_client.main a) start) as [[w f] r] eqn:E.
  injection H as <- ->. revert E.
  unfold heartbeat_client.main. rewrite run_seq.
  destruct fuel as [|fuel]; [rewrite run_do_O; discriminate|].
  rewrite run_do.
  destruct (env (next start)); cbn [reply_outcome]; [discriminate|].
  rewrite run_closing. intros E.
  apply closing_Normal in E. destruct E as (w1 & f1 & E & ->). revert E.
  rewrite run_client_handling, run_seq.
  destruct fuel as [|fuel]; [rewrite run_do_O; discriminate|].
  rewrite run_do.
  assert (Hexit : forall e f0 w0,
             client_handling env (w0, f0, Some (Raised e)) <> (w1, f1, Some Normal)).
  { intros e f0 w0. unfold client_handling. rewrite dispatch_client.
    destruct (isinstance e Exception); [|rewrite run_Ret; discriminate].
    rewrite run_seq. destruct f0 as [|f0]; [rewrite run_do_O; discriminate|].
    rewrite run_do. destruct (env (next w0)); cbn [reply_outcome];
      [|rewrite run_sys_exit]; discriminate. }
  destruct (env (next (record socket_socket start))); cbn [reply_outcome];
    [intros E; destruct (Hexit _ _ _ E)|].
  rewrite run_seq.
  destruct fuel as [|fuel]; [rewrite run_do_O; discriminate|].
  rewrite run_do.
  destruct (env (next (record (s_connect (host a) (port a))
                         (record socket_socket start))));
    cbn [reply_outcome]; [intros E; destruct (Hexit _ _ _ E)|].
  match goal with
  | |- context [run fuel env (while_True _) ?w0] =>
      destruct (run fuel env (while_True guarded_beat) w0)
        as [[wl fl] [ol|]] eqn:EL; [|discriminate]
  end.
  destruct (guarded_loop_ends _ _ _ EL) as [[e ->] | [-> (l & Hl)]].
  - intros E. destruct (Hexit _ _ _ E).
  - cbn [client_handling]. intros H. injection H as <- _.
    exists l. rewrite Hl, <- app_assoc. reflexivity.
Qed.

(** X9.  Neither script returns silently.  When [main] returns (exit
    status 0), the last two calls of the run are the print of a closing
    line and the close of the socket: in [heartbeat.py] the disconnected
    or the interrupted line, in [heartbeat_client.py] the lost-connection
    line. *)
Theorem X9_return_only_after_a_closing_line (a : args) (env : environment) (fuel : nat) :
  (forall lg, execute fuel env (heartbeat.main a) = (lg, Some Normal) ->
     exists l, lg = l ++ [print disconnected_line; s_close] \/
               lg = l ++ [print interrupted_line; s_close]) /\
  (forall lg, execute fuel env (heartbeat_client.main a) = (lg, Some Normal) ->
     exists l, lg = l ++ [print lost_line; s_close]).
Proof.
  split; intros lg H;
    [eapply heartbeat_returns_after_a_line | eapply client_returns_after_a_line];
    exact H.
Qed.

(** The peer resets the connection at the second send. *)
Lemma X9_witness :
  execute 9 (only 5 reset) (heartbeat_client.main local_peer) =
    (prelude local_peer ++ round ++
       [s_sendall heartbeat_bytes; print lost_line; s_close], Some Normal) /\
  exists l,
    prelude local_peer ++ round ++
      [s_sendall heartbeat_bytes; print lost_line; s_close] =
    l ++ [print lost_line; s_close].
Proof.
  assert (H : execute 9 (only 5 reset) (heartbeat_client.main local_peer) =
              (prelude local_peer ++ round ++
                 [s_sendall heartbeat_bytes; print lost_line; s_close], Some Normal))
    by (vm_compute; reflexivity).
  split; [exact H|].
  exact (proj2 (X9_return_only_after_a_closing_line local_peer (only 5 reset) 9) _ H).
Defined.

Lemma run_unfold {R} fuel env (t : itree sysE R) w :
  run fuel env t w =
  match observe t with
  | RetF r => (w, fuel, Some r)
  | TauF t' =>
      match fuel with
      | O => (w, O, None)
      | S f => run f env t' w
      end
  | VisF e k =>
      match fuel with
      | O => (w, O, None)
      | S f =>
          match e in sysE X return (X -> itree sysE R) -> world * nat * option R with
          | Sys c => fun k' => run f env (k' (env (next w))) (record c w)
          end k
      end
  end.
Proof. destruct fuel; reflexivity. Qed.

(** Whatever the tree, a run only appends to the log, counts what it
    appends, and never gains fuel. *)
Lemma emits_any {R} (t : itree sysE R) : emits (fun _ => True) t.
Proof.
  intros env fuel. revert t.
  induction fuel as [|fuel IH]; intros t w w' f' r H;
    rewrite run_unfold in H; destruct (observe t) as [r0|t0|X e0 h].
  - injection H as <- <- _. split; [lia|]. exists [].
    rewrite app_nil_r. cbn. repeat split; [lia | constructor].
  - injection H as <- <- _. split; [lia|]. exists [].
    rewrite app_nil_r. cbn. repeat split; [lia | constructor].
  - injection H as <- <- _. split; [lia|]. exists [].
    rewrite app_nil_r. cbn. repeat split; [lia | constructor].
  - injection H as <- <- _. split; [lia|]. exists [].
    rewrite app_nil_r. cbn. repeat split; [lia | constructor].
  - destruct (IH _ _ _ _ _ H) as (Hf & l & Hl & Hnx & HP).
    split; [lia|]. exists l. repeat split; auto.
  - destruct e0.
    destruct (IH _ _ _ _ _ H) as (Hf & l & Hl & Hnx & HP).
    split; [lia|]. exists (c :: l). cbn [log next record] in *.
    rewrite Hl, Hnx, <- app_assoc. cbn. repeat split; [lia | auto].
Qed.

(** When the close itself raises, that is how [main] ends, whatever
    happened before. *)
Lemma with_socket_close_raises (body : py) env fuel w w' f' o e' :
  env (next w) = None ->
  next w = length (log w) ->
  run fuel env (with_socket body) w = (w', f', Some o) ->
  env (length (log w') - 1) = Some e' ->
  o = Raised e'.
Proof.
  intros Hc Hn H He. unfold with_socket in H. rewrite run_seq in H.
  destruct fuel as [|fuel]; [rewrite run_do_O in H; discriminate|].
  rewrite run_do, Hc in H. cbn [reply_outcome] in H.
  rewrite run_try_finally in H.
  destruct (run fuel env body (record socket_socket w)) as [[w1 f1] [o1|]] eqn:E1;
    [|discriminate].
  destruct (@emits_any _ body _ _ _ _ _ _ E1) as (_ & l & Hl & Hnx & _).
  destruct f1 as [|f1]; [rewrite run_do_O in H; discriminate|].
  rewrite run_do in H.
  assert (Hlast : length (log w') - 1 = next w1).
  { assert (Hw : w' = record s_close w1)
      by (destruct (reply_outcome (env (next w1))); congruence).
    rewrite Hw. cbn [log record next] in *.
    rewrite Hnx, Hl, !length_app, Hn. cbn. lia. }
  rewrite Hlast in He. rewrite He in H. cbn [reply_outcome] in H. congruence.
Qed.

(** X10.  An error from [s.close()] decides how the process ends.  In a
    run of either script that has ended after the socket was created, if
    the last call, the close, raised, then [main] ends with that error,
    whether the run was on its way to return, to exit with status 1, or
    to pass another error on. *)
Theorem X10_error_from_close_wins
    (a : args) (env : environment) (fuel : nat) (lg : list call)
    (o : outcome) (e' : exn) :
  env 0 = None ->
  execute fuel env (heartbeat.main a) = (lg, Some o) \/
  execute fuel env (heartbeat_client.main a) = (lg, Some o) ->
  env (length lg - 1) = Some e' ->
  o = Raised e'.
Proof.
  intros Hc H He. unfold execute in H.
  destruct H as [H | H].
  - destruct (run fuel env (heartbeat.main a) start) as [[w' f'] r] eqn:E.
    injection H as <- ->.
    exact (@with_socket_close_raises _ env fuel start w' f' o e' Hc eq_refl E He).
  - destruct (run fuel env (heartbeat_client.main a) start) as [[w' f'] r] eqn:E.
    injection H as <- ->.
    exact (@with_socket_close_raises _ env fuel start w' f' o e' Hc eq_refl E He).
Qed.

(** The connect is refused, the script is about to exit with status 1,
    and the close fails. *)
Lemma X10_witness :
  only2 1 refused 3 bad_descriptor 0 = None /\
  execute 10 (only2 1 refused 3 bad_descriptor) (heartbeat_client.main local_peer) =
    ([socket_socket; s_connect "127.0.0.1" 9999;
      print "Python: Could not connect to QuPath: [Errno 111] Connection refused";
      s_close],
     Some (Raised bad_descriptor)) /\
  only2 1 refused 3 bad_descriptor 3 = Some bad_descriptor /\
  Raised bad_descriptor = Raised bad_descriptor.
Proof.
  assert (H : execute 10 (only2 1 refused 3 bad_descriptor)
                (heartbeat_client.main local_peer) =
              ([socket_socket; s_connect "127.0.0.1" 9999;
                print "Python: Could not connect to QuPath: [Errno 111] Connection refused";
                s_close],
               Some (Raised bad_descriptor))) by (vm_compute; reflexivity).
  split; [reflexivity|]. split; [exact H|]. split; [reflexivity|].
  exact (@X10_error_from_close_wins local_peer (only2 1 refused 3 bad_descriptor)
           10 _ _ bad_descriptor eq_refl (or_intror H) eq_refl).
Defined.

Lemma only2_raises_only_at2 k e k' e' :
  k <> k' -> raises_only_at2 k e k' e' (only2 k e k' e').
Proof.
  intros Hk. unfold raises_only_at2, only2. rewrite !Nat.eqb_refl.
  split; [reflexivity|]. split.
  - apply not_eq_sym, Nat.eqb_neq in Hk. rewrite Hk. reflexivity.
  - intros i H1 H2. apply Nat.eqb_neq in H1, H2. rewrite H1, H2. reflexivity.
Qed.

(** X11.  In [heartbeat_client.py] the clause for a lost connection sits
    inside the outer [try].  When a send or sleep raises one of the three
    disconnect errors and the print of the lost-connection line then
    raises an [Exception] itself, the loop does not [break]: the outer
    clause takes the second error, prints it as a failure to connect, and
    the script exits with status 1 instead of 0. *)
Theorem X11_failed_report_becomes_connect_failure
    (a : args) (env : environment) (s : site) (e e' : exn) (f : nat) :
  raises_only_at2 (index s) e (S (index s)) e' env ->
  disconnect_error e = true ->
  isinstance e' Exception = true ->
  execute (3 + cost s + 3 + f) env (heartbeat_client.main a) =
    (prelude a ++ calls_to s ++
       [print lost_line; print (could_not_connect_line e'); s_close],
     Some (Raised (SysExit 1))).
Proof.
  intros (He & He' & Hq) Hd Hex. unfold execute.
  replace (3 + cost s + 3 + f) with (3 + (cost s + S (S (S f)))) by lia.
  rewrite client_connected by (apply Hq; unfold index; lia).
  rewrite (@guarded_loop_raises env s e (S (S f)) (connected a)), Hd.
  - cbn [next connected].
    replace (3 + S (offset s)) with (S (index s)) by (unfold index; lia).
    rewrite He'. cbn [reply_outcome].
    unfold client_handling. rewrite dispatch_client, Hex.
    rewrite run_seq, run_do. cbn [next record struck connected].
    rewrite (Hq (S (3 + S (offset s)))) by (unfold index; lia).
    cbn [reply_outcome]. rewrite run_sys_exit. unfold closing.
    rewrite run_do. cbn [next record struck connected].
    rewrite (Hq (S (S (3 + S (offset s))))) by (unfold index; lia).
    cbn [reply_outcome]. log_done.
  - intros i Hi. apply Hq; unfold index; cbn [next connected]; lia.
  - exact He.
Qed.

(** The peer resets the connection at the second send, and standard
    output is a closed pipe. *)
Lemma X11_witness :
  raises_only_at2 (index (at_send 1)) reset (S (index (at_send 1))) stdout_closed
    (only2 5 reset 6 stdout_closed) /\
  disconnect_error reset = true /\
  isinstance stdout_closed Exception = true /\
  execute (3 + cost (at_send 1) + 3 + 0) (only2 5 reset 6 stdout_closed)
    (heartbeat_client.main local_peer) =
    (prelude local_peer ++ round ++
       [s_sendall heartbeat_bytes; print lost_line;
        print "Python: Could not connect to QuPath: [Errno 32] Broken pipe"; s_close],
     Some (Raised (SysExit 1))).
Proof.
  assert (Hr : raises_only_at2 (index (at_send 1)) reset (S (index (at_send 1)))
                 stdout_closed (only2 5 reset 6 stdout_closed))
    by (apply (@only2_raises_only_at2 5 reset 6 stdout_closed); lia).
  split; [exact Hr|]. split; [reflexivity|]. split; [reflexivity|].
  exact (@X11_failed_report_becomes_connect_failure local_peer
           (only2 5 reset 6 stdout_closed) (at_send 1) reset stdout_closed 0
           Hr eq_refl eq_refl).
Defined.

Lemma heartbeat_calls_as_written a : emits (heartbeat_call a) (heartbeat.main a).
Proof. emits_auto; cbn; auto 6. Qed.

(** An error that leaves the loop of [heartbeat_client.py] is one the
    environment raised. *)
Lemma guarded_loop_raise_from_env env :
  forall fuel w w' f' e,
    run fuel env (while_True guarded_beat) w = (w', f', Some (Raised e)) ->
    exists i, env i = Some e.
Proof.
  induction fuel as [fuel IH] using lt_wf_ind. intros w w' f' e H.
  rewrite run_while_True, run_try_except, run_seq in H.
  destruct fuel as [|fuel]; [rewrite run_do_O in H; discriminate|].
  rewrite run_do in H.
  destruct (env (next w)) as [e0|] eqn:E0; cbn [reply_outcome] in H.
  { unfold dispatch in H. cbn [find] in H. rewrite catches_lost in H.
    destruct (disconnect_error e0);
      [|rewrite run_Ret in H; exists (next w); congruence].
    cbn [handler] in H. rewrite run_seq in H.
    destruct fuel as [|fuel]; [rewrite run_do_O in H; discriminate|].
    rewrite run_do in H.
    destruct (env (next (record (s_sendall heartbeat_bytes) w))) as [e1|] eqn:E1;
      cbn [reply_outcome] in H;
      [exists (next (record (s_sendall heartbeat_bytes) w)); congruence|].
    rewrite run_break in H. discriminate. }
  destruct fuel as [|fuel]; [rewrite run_do_O in H; discriminate|].
  rewrite run_do in H.
  destruct (env (next (record (s_sendall heartbeat_bytes) w))) as [e0|] eqn:E0';
    cbn [reply_outcome] in H.
  { unfold dispatch in H. cbn [find] in H. rewrite catches_lost in H.
    destruct (disconnect_error e0);
      [|rewrite run_Ret in H;
        exists (next (record (s_sendall heartbeat_bytes) w)); congruence].
    cbn [handler] in H. rewrite run_seq in H.
    destruct fuel as [|fuel]; [rewrite run_do_O in H; discriminate|].
    rewrite run_do in H.
    destruct (env (next (record (time_sleep 2)
                           (record (s_sendall heartbeat_bytes) w)))) as [e1|] eqn:E1;
      cbn [reply_outcome] in H;
      [eexists; rewrite E1; congruence|].
    rewrite run_break in H. discriminate. }
  destruct fuel as [|fuel]; [discriminate|].
  apply (IH fuel ltac:(lia) _ _ _ _ H).
Qed.

(** So is an error that leaves the body of its outer [try]. *)
Lemma client_body_raise_from_env a env fuel w w' f' e :
  run fuel env
    (do (s_connect (host a) (port a)) ;;
     do (print "Python: Connected to QuPath workflow, sending heartbeats.") ;;
     while_True guarded_beat)%py w = (w', f', Some (Raised e)) ->
  exists i, env i = Some e.
Proof.
  rewrite run_seq.
  destruct fuel as [|fuel]; [rewrite run_do_O; discriminate|].
  rewrite run_do.
  destruct (env (next w)) as [e0|] eqn:E0; cbn [reply_outcome];
    [intros H; exists (next w); congruence|].
  rewrite run_seq.
  destruct fuel as [|fuel]; [rewrite run_do_O; discriminate|].
  rewrite run_do.
  destruct (env (next (record (s_connect (host a) (port a)) w))) as [e0|] eqn:E1;
    cbn [reply_outcome]; [intros H; eexists; rewrite E1; congruence|].
  apply guarded_loop_raise_from_env.
Qed.

(** The outer clause prints at most the could-not-connect line, with the
    text of the error it was handed. *)
Lemma client_handling_calls a env res :
  (forall w f e, res = (w, f, Some (Raised e)) -> exists i, env i = Some e) ->
  exists h, reached (client_handling env res) = reached res ++ h /\
            Forall (client_call a env) h.
Proof.
  intros Hfrom. destruct res as [[w f] [[|e|]|]];
    try (exists []; rewrite app_nil_r; split; [reflexivity | constructor]).
  destruct (Hfrom w f e eq_refl) as [i Hi].
  unfold client_handling. rewrite dispatch_client.
  destruct (isinstance e Exception) eqn:Hex;
    [|rewrite run_Ret; exists []; rewrite app_nil_r;
      split; [reflexivity | constructor]].
  rewrite run_seq.
  destruct f as [|f];
    [rewrite run_do_O; exists []; rewrite app_nil_r;
     split; [reflexivity | constructor]|].
  rewrite run_do. exists [print (could_not_connect_line e)]. split.
  - destruct (env (next w)); cbn [reply_outcome]; rewrite ?run_sys_exit;
      reflexivity.
  - constructor; [|constructor]. right. exists i, e. auto.
Qed.

Lemma client_calls_as_written a env fuel :
  Forall (client_call a env) (fst (execute fuel env (heartbeat_client.main a))).
Proof.
  rewrite reached_execute. unfold heartbeat_client.main. rewrite run_seq.
  destruct fuel as [|fuel]; [rewrite run_do_O; constructor|].
  rewrite run_do. destruct (env (next start)); cbn [reply_outcome].
  { repeat constructor. }
  rewrite run_closing.
  match goal with
  | |- context [closing env ?r] =>
      destruct (closing_reached env r) as (t & Ht & Htt); rewrite Ht; clear Ht
  end.
  rewrite run_client_handling.
  match goal with
  | |- context [client_handling env ?r] =>
      destruct (@client_handling_calls a env r) as (h & Hh & HPh);
      [|rewrite Hh; clear Hh]
  end.
  { intros w f e H. eapply client_body_raise_from_env. exact H. }
  match goal with
  | |- context [run fuel env ?body ?w] =>
      destruct (run fuel env body w) as [[w' f'] r] eqn:E;
      assert (Hb : emits (client_call a env) body) by (emits_auto; cbn; auto 6)
  end.
  destruct (Hb _ _ _ _ _ _ E) as (_ & l & Hl & _ & HP).
  unfold reached. cbn [fst]. rewrite Hl. cbn [log record start app].
  constructor; [exact I|].
  rewrite !Forall_app. split; [split; [exact HP | exact HPh]|].
  destruct Htt as [-> | ->]; repeat constructor.
Qed.

(** X3.  In every run, whatever the environment answers, each script
    connects only to the host and port of its command line, sends only
    the bytes [heartbeat\n], pauses only for two seconds and never reads.
    [heartbeat.py] prints only its connected, disconnected and
    interrupted lines.  [heartbeat_client.py] prints only its connected
    and lost-connection lines and the could-not-connect line, and that
    one only with the text of an [Exception] which a call of the same run
    has raised. *)
Theorem X3_every_call_as_written (a : args) (env : environment) (fuel : nat) :
  Forall (heartbeat_call a) (fst (execute fuel env (heartbeat.main a))) /\
  Forall (client_call a env) (fst (execute fuel env (heartbeat_client.main a))).
Proof.
  split; [apply emits_execute, heartbeat_calls_as_written
         | apply client_calls_as_written].
Qed.

(** The two predicates tell the scripts apart: the lost-connection line
    is no line of [heartbeat.py], and [heartbeat_client.py] is not
    allowed a could-not-connect line in a run in which nothing raised. *)
Example lost_line_is_not_a_heartbeat_call :
  ~ heartbeat_call local_peer (print lost_line).
Proof.
  cbn. intros [H | [H | [H | []]]]; discriminate H.
Qed.

Example no_failure_line_without_a_raise :
  ~ client_call local_peer silent (print (could_not_connect_line refused)).
Proof.
  cbn. intros [[H | [H | []]] | (i & e & H & _)]; discriminate H.
Qed.
